(** * pptx2pdf_encrypted: conversion and protection pipeline

    A shallow embedding of [main.py]: the configuration accessor
    ([Config]), the directory walk and per-file conversion
    ([PDFConverter]), the in-place encryption ([PDFProtector]) and the
    orchestration ([App]).

    Python values are modelled as follows: [str] as [string] (its UTF-8
    bytes), integers as [Z], [dict] as [gmap], exceptions as a result
    type, and every operation that touches the outside world as a
    function on an explicit [World] (a file system plus the log of the
    calls made). Paths follow [posixpath]: the program runs the
    converter under [/opt/homebrew]. *)

From Stdlib Require Import ZArith Ascii String List Bool Lia.
From stdpp Require Import base option list gmap strings fin_maps.

Set Warnings "-register-all".

Open Scope string_scope.
Open Scope Z_scope.

(** ** Python [str] operations *)

Module Str.

(** [s[n:]] for [0 <= n]. *)
Fixpoint drop (n : nat) (s : string) : string :=
  match n, s with
  | O, _ => s
  | S _, EmptyString => EmptyString
  | S n', String _ s' => drop n' s'
  end.

(** [s[:n]] for [0 <= n]. *)
Fixpoint take (n : nat) (s : string) : string :=
  match n, s with
  | O, _ => EmptyString
  | S _, EmptyString => EmptyString
  | S n', String a s' => String a (take n' s')
  end.

(** [s.startswith(pre)] *)
Definition startswith (s pre : string) : bool := String.prefix pre s.

(** [s.endswith(suf)]: the last [len(suf)] characters of [s] are [suf]. *)
Definition endswith (s suf : string) : bool :=
  (String.length suf <=? String.length s)%nat
  && (drop (String.length s - String.length suf) s =? suf)%string.

(** [s.rfind(c)]: the highest index of [c] in [s], or [-1]. *)
Fixpoint rfind (c : ascii) (s : string) : Z :=
  match s with
  | EmptyString => -1
  | String a s' =>
      let r := rfind c s' in
      if 0 <=? r then r + 1
      else if Ascii.eqb a c then 0 else -1
  end.

(** [s[i:i+1]] for [0 <= i]. *)
Definition slice1 (s : string) (i : Z) : string :=
  take 1 (drop (Z.to_nat i) s).

(** [s.split(c)] *)
Fixpoint split (c : ascii) (s : string) : list string :=
  match s with
  | EmptyString => [EmptyString]
  | String a s' =>
      if Ascii.eqb a c then EmptyString :: split c s'
      else match split c s' with
           | h :: t => String a h :: t
           | [] => [String a EmptyString]
           end
  end.

(** ASCII [s.lower()]. *)
Definition lower_ascii (a : ascii) : ascii :=
  let n := nat_of_ascii a in
  if ((65 <=? n) && (n <=? 90))%nat then ascii_of_nat (n + 32) else a.

Fixpoint lower (s : string) : string :=
  match s with
  | EmptyString => EmptyString
  | String a s' => String (lower_ascii a) (lower s')
  end.

(** The characters of [s] are all dots (true of the empty string). *)
Fixpoint all_dots (s : string) : bool :=
  match s with
  | EmptyString => true
  | String a s' => Ascii.eqb a "." && all_dots s'
  end.

(** Truth value of a [str]: only the empty string is falsy. *)
Definition truthy (s : string) : bool := negb (s =? EmptyString)%string.

End Str.

(** ** [posixpath] *)

Module PosixPath.

Definition sep : string := "/".
Definition curdir : string := ".".
Definition pardir : string := "..".

Definition isabs (p : string) : bool := Str.startswith p sep.

(** [os.path.basename(p)]: what follows the last separator. *)
Definition basename (p : string) : string :=
  Str.drop (Z.to_nat (Str.rfind "/" p + 1)) p.

(** [os.path.join(a, b)] with two arguments. *)
Definition join (a b : string) : string :=
  if Str.startswith b sep then b
  else if negb (Str.truthy a) || Str.endswith a sep then a +:+ b
  else a +:+ sep +:+ b.

(** [os.path.join(a, *p)] *)
Definition join_all (a : string) (p : list string) : string := fold_left join p a.

(** The loop of [genericpath._splitext] that skips the leading dots of
    the last component; [n] is the number of iterations left, that is
    [dotIndex - filenameIndex]. *)
Fixpoint splitext_scan (n : nat) (p : string) (filenameIndex dotIndex : Z)
  : string * string :=
  match n with
  | O => (p, EmptyString)
  | S n' =>
      if negb (Str.slice1 p filenameIndex =? ".")%string
      then (Str.take (Z.to_nat dotIndex) p, Str.drop (Z.to_nat dotIndex) p)
      else splitext_scan n' p (filenameIndex + 1) dotIndex
  end.

(** [os.path.splitext(p)] *)
Definition splitext (p : string) : string * string :=
  let sepIndex := Str.rfind "/" p in
  let dotIndex := Str.rfind "." p in
  if sepIndex <? dotIndex then
    let filenameIndex := sepIndex + 1 in
    splitext_scan (Z.to_nat (dotIndex - filenameIndex)) p filenameIndex dotIndex
  else (p, EmptyString).

(** The component loop of [os.path.normpath]. *)
Fixpoint normpath_comps (initial_slashes : nat) (comps new_comps : list string)
  : list string :=
  match comps with
  | [] => new_comps
  | comp :: comps' =>
      if (comp =? EmptyString)%string || (comp =? curdir)%string
      then normpath_comps initial_slashes comps' new_comps
      else if negb (comp =? pardir)%string
              || ((initial_slashes =? 0)%nat && (length new_comps =? 0)%nat)
              || match last new_comps with
                 | Some c => (c =? pardir)%string
                 | None => false
                 end
      then normpath_comps initial_slashes comps' (new_comps ++ [comp])%list
      else normpath_comps initial_slashes comps' (removelast new_comps)
  end.

(** [os.path.normpath(path)] *)
Definition normpath (path : string) : string :=
  if (path =? EmptyString)%string then curdir
  else
    let initial_slashes : nat :=
      if Str.startswith path sep then
        if Str.startswith path "//" && negb (Str.startswith path "///")
        then 2%nat else 1%nat
      else 0%nat in
    let comps := normpath_comps initial_slashes (Str.split "/" path) [] in
    let path' := String.concat sep comps in
    let path' :=
      match initial_slashes with
      | O => path'
      | 1%nat => sep +:+ path'
      | _ => "//" +:+ path'
      end in
    if Str.truthy path' then path' else curdir.

Section WithCwd.

(** [os.getcwd()]; the working directory does not change during a run. *)
Variable cwd : string.

(** [os.path.abspath(path)] *)
Definition abspath (path : string) : string :=
  if isabs path then normpath path else normpath (join cwd path).

(** [[x for x in abspath(p).split(sep) if x]] *)
Definition components (p : string) : list string :=
  List.filter Str.truthy (Str.split "/" (abspath p)).

(** [len(commonprefix([l1, l2]))] on lists of components. *)
Fixpoint commonprefix_len (l1 l2 : list string) : nat :=
  match l1, l2 with
  | a :: l1', b :: l2' =>
      if (a =? b)%string then S (commonprefix_len l1' l2') else O
  | _, _ => O
  end.

(** [os.path.relpath(path, start)]; [None] stands for the [ValueError]
    raised on an empty [path]. *)
Definition relpath (path start : string) : option string :=
  if negb (Str.truthy path) then None
  else
    let start_list := components start in
    let path_list := components path in
    let i := commonprefix_len start_list path_list in
    let rel_list :=
      (repeat pardir (length start_list - i) ++ drop i path_list)%list in
    match rel_list with
    | [] => Some curdir
    | a :: p => Some (join_all a p)
    end.

End WithCwd.

End PosixPath.

(** ** Values, exceptions and the world *)

(** The objects [yaml.safe_load] builds from a document of scalars,
    sequences and mappings. A [dict] is kept as the map of its [str]
    keys: [Config.get] is only ever asked for a [str] key, which no key
    of another type equals. *)
Inductive pyobj :=
| PNone
| PBool (b : bool)
| PInt (z : Z)
| PFloat (repr : string)
| PStr (s : string)
| PList (l : list pyobj)
| PDict (d : gmap string pyobj).

Inductive exn :=
| AttributeError
| TypeError
| ValueError
| FileNotFoundError
| IsADirectoryError
| NotADirectoryError
| FileExistsError
| CalledProcessError (returncode : Z)
| YAMLError
| PdfError (what : string).

Inductive res (A : Type) :=
| Ok (a : A)
| Raise (e : exn).
Arguments Ok {A} a.
Arguments Raise {A} e.

(** The keyword arguments of [pikepdf.Permissions(...)]: [None] is an
    argument the call does not pass (the library default applies). *)
Record Permissions := {
  accessibility : option bool;
  extract : option bool;
  modify_annotation : option bool;
  modify_assembly : option bool;
  modify_form : option bool;
  modify_other : option bool;
  print_highres : option bool;
  print_lowres : option bool
}.

(** The keyword arguments of [pikepdf.Encryption(...)], likewise. *)
Record Encryption := {
  owner : option pyobj;
  user : option pyobj;
  allow : option Permissions
}.

(** The file system: absolute paths, as lists of components, to nodes.
    There are no symbolic links. *)
Inductive node :=
| Dir
| File (data : string).

Abbreviation FS := (gmap (list string) node).

(** The calls a run makes to the outside world, in order. *)
Inductive Event :=
| EMkdir (p : string)
| EMakedirs (p : string)
| ERun (cmd : string) (returncode : Z)
| EIsFile (p : string) (found : bool)
| EPrint (msg : string)
| EOpen (p : string) (allow_overwriting_input : bool)
| ESave (p : string) (enc : Encryption).

Record World := { fs : FS; log : list Event }.

(** What the program does not decide:
    - [cwd]: the working directory, which stays the same during a run;
    - [safe_load]: the object [yaml.safe_load] builds from the text of a
      file, or the exception it raises;
    - [os_walk]: the entries [(root, dirs, files)] that [os.walk(top)]
      yields during the run, in order;
    - [shell]: the exit status of a command line run through the shell,
      and the file system it leaves;
    - [Pdf], [pikepdf_open], [pikepdf_save]: the open documents of the
      PDF library, what opening the file at a path gives, and what
      saving a document to a path with an encryption record gives and
      leaves. *)
Record Env := {
  cwd : string;
  safe_load : string -> res pyobj;
  os_walk : string -> list (string * list string * list string);
  shell : string -> FS -> Z * FS;
  Pdf : Type;
  pikepdf_open : string -> FS -> res Pdf;
  pikepdf_save : Pdf -> string -> Encryption -> FS -> res unit * FS
}.

(** A computation: a result or an exception, and the world it leaves. *)
Definition M (A : Type) : Type := World -> res A * World.

Definition ret {A} (a : A) : M A := fun w => (Ok a, w).
Definition raise {A} (e : exn) : M A := fun w => (Raise e, w).
Definition bind {A B} (m : M A) (k : A -> M B) : M B :=
  fun w => match m w with
           | (Ok a, w') => k a w'
           | (Raise e, w') => (Raise e, w')
           end.
Definition lift {A} (r : res A) : M A := fun w => (r, w).

Notation "x <- m ;; k" := (bind m (fun x => k))
  (at level 100, m at next level, right associativity).
Notation "m ;;; k" := (bind m (fun _ => k))
  (at level 100, right associativity).

(** [try: body except CalledProcessError: handler] *)
Definition try_except_CalledProcessError {A} (body handler : M A) : M A :=
  fun w => match body w with
           | (Raise (CalledProcessError _), w') => handler w'
           | r => r
           end.

(** [for x in l: body(x)] *)
Fixpoint for_each {A} (body : A -> M unit) (l : list A) : M unit :=
  match l with
  | [] => ret tt
  | x :: l' => body x ;;; for_each body l'
  end.

(** The world after calls that left the file system [s] and logged [evs]. *)
Definition after (w : World) (s : FS) (evs : list Event) : World :=
  {| fs := s; log := (log w ++ evs)%list |}.

(** The world after a call that only logged [e]. *)
Definition emit (e : Event) (w : World) : World := after w (fs w) [e].

(** [print(msg)] *)
Definition print (msg : string) : M unit := fun w => (Ok tt, emit (EPrint msg) w).

(** ** The file system calls *)

Module Fs.

(** The node at [q]; the root is always a directory. *)
Definition node_at (s : FS) (q : list string) : option node :=
  match q with
  | [] => Some Dir
  | _ => s !! q
  end.

Definition is_dir (s : FS) (q : list string) : bool :=
  match node_at s q with Some Dir => true | _ => false end.

Definition is_file (s : FS) (q : list string) : bool :=
  match node_at s q with Some (File _) => true | _ => false end.

(** Create the directories [pre ++ [c1]], [pre ++ [c1; c2]], ... that are
    missing; a regular file in the way raises. *)
Fixpoint mkdirs_from (pre rest : list string) (s : FS) : res unit * FS :=
  match rest with
  | [] => (Ok tt, s)
  | c :: rest' =>
      let q := (pre ++ [c])%list in
      match s !! q with
      | Some (File _) =>
          (Raise (match rest' with [] => FileExistsError | _ => NotADirectoryError end), s)
      | Some Dir => mkdirs_from q rest' s
      | None => mkdirs_from q rest' (<[q := Dir]> s)
      end
  end.

(** The paths [pre ++ [c1]], [pre ++ [c1; c2]], ...: with [pre = []],
    the ancestors of a directory, outermost first, and the directory
    itself. *)
Fixpoint chain_from (pre rest : list string) : list (list string) :=
  match rest with
  | [] => []
  | c :: rest' => (pre ++ [c])%list :: chain_from (pre ++ [c])%list rest'
  end.

Definition chain (comps : list string) : list (list string) := chain_from [] comps.

(** No regular file stands at any path of the list. *)
Definition unblocked (s : FS) (qs : list (list string)) : Prop :=
  forall q data, In q qs -> s !! q <> Some (File data).

(** The boolean form of [unblocked]. *)
Definition clear (s : FS) (qs : list (list string)) : bool :=
  forallb (fun q => negb (is_file s q)) qs.

End Fs.

Section Calls.

Variable env : Env.

(** The components a path string resolves to: the path made absolute and
    normalised as [os.path.abspath] does, so [x/..] is dropped without
    looking at [x]. The system walks a path as it is written; the two
    agree on a path that has no [..] component. *)
Definition resolve (p : string) : list string := PosixPath.components (cwd env) p.

(** [os.makedirs(p, exist_ok=True)], with [p] located by [resolve]. *)
Definition os_makedirs (p : string) : M unit :=
  fun w => let (r, s) := Fs.mkdirs_from [] (resolve p) (fs w) in
           (r, after w s [EMakedirs p]).

(** [Path(v)]: anything but a [str] is refused. *)
Definition Path (v : pyobj) : M string :=
  match v with
  | PStr s => ret s
  | _ => raise TypeError
  end.

(** [Path(p).mkdir(parents=True, exist_ok=True)], with [p] located by
    [resolve]. *)
Definition Path_mkdir (p : string) : M unit :=
  fun w => let (r, s) := Fs.mkdirs_from [] (resolve p) (fs w) in
           (r, after w s [EMkdir p]).

(** [Path(p).is_file()] *)
Definition Path_is_file (p : string) : M bool :=
  fun w => let b := Fs.is_file (fs w) (resolve p) in (Ok b, emit (EIsFile p b) w).

(** [subprocess.run(cmd, shell=True, check=True)] *)
Definition subprocess_run (cmd : string) : M unit :=
  fun w => let (code, s) := shell env cmd (fs w) in
           let w' := after w s [ERun cmd code] in
           if code =? 0 then (Ok tt, w') else (Raise (CalledProcessError code), w').

(** [os.path.join(a, b)] where [a] may be any object. *)
Definition os_path_join (a : pyobj) (b : string) : M string :=
  match a with
  | PStr s => ret (PosixPath.join s b)
  | _ => raise TypeError
  end.

(** [os.path.relpath(path, start)] where [start] may be any object. *)
Definition os_path_relpath (path : string) (start : pyobj) : M string :=
  match start with
  | PStr s =>
      match PosixPath.relpath (cwd env) path s with
      | Some r => ret r
      | None => raise ValueError
      end
  | _ => raise TypeError
  end.

(** [os.walk(top)]: the entries [(root, dirs, files)] the generator
    yields; anything but a [str] is refused. *)
Definition os_walk_entries (top : pyobj)
  : M (list (string * list string * list string)) :=
  match top with
  | PStr s => ret (os_walk env s)
  | _ => raise TypeError
  end.

(** [open(p, 'r')] followed by reading the whole file. *)
Definition open_read (p : string) : M string :=
  fun w => match Fs.node_at (fs w) (resolve p) with
           | Some (File data) => (Ok data, w)
           | Some Dir => (Raise IsADirectoryError, w)
           | None => (Raise FileNotFoundError, w)
           end.

(** [pikepdf.open(p, allow_overwriting_input=True)] *)
Definition pikepdf_open_overwriting (p : string) : M (Pdf env) :=
  fun w => (pikepdf_open env p (fs w), emit (EOpen p true) w).

(** [pdf.save(p, encryption=enc)] *)
Definition Pdf_save (pdf : Pdf env) (p : string) (enc : Encryption) : M unit :=
  fun w => let (r, s) := pikepdf_save env pdf p enc (fs w) in
           (r, after w s [ESave p enc]).

End Calls.

(** The double quote of the command line. *)
Definition dquote : string := String "034"%char EmptyString.

(** Truth value of an [Optional[str]]. *)
Definition truthy_opt (v : option string) : bool :=
  match v with
  | None => false
  | Some s => Str.truthy s
  end.

(** [if v: l.append(v)] for an [Optional[str]] *)
Definition append_if_truthy (l : list string) (v : option string) : list string :=
  match v with
  | Some p => if truthy_opt v then (l ++ [p])%list else l
  | None => l
  end.

(** ** [class Config] *)

Module Config.

Record t := { config : pyobj }.

Section Methods.

Variable env : Env.

Definition __init__ (config_path : string) : M t :=
  data <- open_read env config_path ;;
  doc <- lift (safe_load env data) ;;
  ret {| config := doc |}.

(** [self.config.get(key)]: only a [dict] has the attribute [get]. *)
Definition get (self : t) (key : string) : M pyobj :=
  match config self with
  | PDict d => ret (default PNone (d !! key))
  | _ => raise AttributeError
  end.

End Methods.

End Config.

(** ** [class PDFConverter] *)

Module PDFConverter.

Record t := {
  source_dir : pyobj;
  dist_dir : pyobj;
  convert_command_prefix : string
}.

Definition __init__ (source_dir dist_dir : pyobj) (convert_command_prefix : string) : t :=
  {| source_dir := source_dir;
     dist_dir := dist_dir;
     convert_command_prefix := convert_command_prefix |}.

(** The local [target_file] of [_convert_file]:
    [join(target_dir, splitext(file)[0] + '.pdf')]. *)
Definition target_file_of (file target_dir : string) : string :=
  let target_file_pdf := fst (PosixPath.splitext file) +:+ ".pdf" in
  PosixPath.join target_dir target_file_pdf.

(** The local [convert_command] of [_convert_file]: the prefix, then
    [--convert-to pdf --outdir], the quoted target directory and the
    quoted [join(root, file)]. *)
Definition convert_command_of (self : t) (root file target_dir : string) : string :=
  let source_file := PosixPath.join root file in
  convert_command_prefix self +:+ " --convert-to pdf --outdir "
    +:+ dquote +:+ target_dir +:+ dquote +:+ " "
    +:+ dquote +:+ source_file +:+ dquote.

(** The three messages [_convert_file] prints. *)
Definition msg_converted (file : string) : string :=
  "Файл " +:+ file +:+ " успешно сконвертирован в PDF.".
Definition msg_not_found (file : string) : string :=
  "Ошибка: Файл " +:+ file
    +:+ " не был сконвертирован в PDF. Результирующий файл не найден.".
Definition msg_failed (file : string) : string :=
  "Ошибка при конвертации файла " +:+ file +:+ ".".

Section Methods.

Variable env : Env.

Definition _convert_file (self : t) (root file target_dir : string)
  : M (option string) :=
  let target_file := target_file_of file target_dir in
  let convert_command := convert_command_of self root file target_dir in
  try_except_CalledProcessError
    (subprocess_run env convert_command ;;;
     found <- Path_is_file env target_file ;;
     if found : bool then
       print (msg_converted file) ;;;
       ret (Some target_file)
     else
       print (msg_not_found file) ;;;
       ret None)
    (print (msg_failed file) ;;;
     ret None).

(** The inner loop [for file in files]; [converted_files] is the list
    the loop appends to. *)
Fixpoint convert_files (self : t) (root target_dir : string)
    (files : list string) (converted_files : list string) : M (list string) :=
  match files with
  | [] => ret converted_files
  | file :: files' =>
      if Str.endswith file ".pptx" then
        pdf_path <- _convert_file self root file target_dir ;;
        convert_files self root target_dir files'
          (append_if_truthy converted_files pdf_path)
      else convert_files self root target_dir files' converted_files
  end.

(** The outer loop [for root, _, files in os.walk(self.source_dir)]. *)
Fixpoint convert_walk (self : t)
    (entries : list (string * list string * list string))
    (converted_files : list string) : M (list string) :=
  match entries with
  | [] => ret converted_files
  | (root, _, files) :: entries' =>
      relative_path <- os_path_relpath env root (source_dir self) ;;
      target_dir <- os_path_join (dist_dir self) relative_path ;;
      os_makedirs env target_dir ;;;
      converted_files' <- convert_files self root target_dir files converted_files ;;
      convert_walk self entries' converted_files'
  end.

Definition convert (self : t) : M (list string) :=
  entries <- os_walk_entries env (source_dir self) ;;
  convert_walk self entries [].

End Methods.

End PDFConverter.

(** ** [class PDFProtector] *)

Module PDFProtector.

Record t := { owner_password : pyobj }.

Definition __init__ (owner_password : pyobj) : t :=
  {| owner_password := owner_password |}.

(** The [pikepdf.Permissions(...)] and [pikepdf.Encryption(...)] that
    [protect] builds. *)
Definition permissions : Permissions :=
  {| accessibility := None;
     extract := Some false;
     modify_annotation := Some false;
     modify_assembly := Some false;
     modify_form := Some false;
     modify_other := Some false;
     print_highres := Some false;
     print_lowres := Some false |}.

Definition encryption_of (self : t) : Encryption :=
  {| owner := Some (owner_password self);
     user := None;
     allow := Some permissions |}.

Definition msg_protected (pdf_path : string) : string :=
  "Защита наложена на " +:+ pdf_path.

Section Methods.

Variable env : Env.

Definition protect (self : t) (pdf_path : string) : M unit :=
  pdf <- pikepdf_open_overwriting env pdf_path ;;
  Pdf_save env pdf pdf_path (encryption_of self) ;;;
  print (msg_protected pdf_path).

End Methods.

End PDFProtector.

(** ** [class App] *)

Module App.

Record t := {
  config : Config.t;
  converter : PDFConverter.t;
  protector : PDFProtector.t
}.

Section Methods.

Variable env : Env.

Definition __init__ (config_path : string) : M t :=
  config <- Config.__init__ env config_path ;;
  source_dir <- Config.get config "source_dir" ;;
  dist_dir <- Config.get config "dist_dir" ;;
  let converter :=
    PDFConverter.__init__ source_dir dist_dir "/opt/homebrew/bin/soffice" in
  owner_password <- Config.get config "owner_password" ;;
  let protector := PDFProtector.__init__ owner_password in
  ret {| config := config; converter := converter; protector := protector |}.

Definition run (self : t) : M unit :=
  dist_dir <- Config.get (config self) "dist_dir" ;;
  dist_path <- Path dist_dir ;;
  Path_mkdir env dist_path ;;;
  converted_files <- PDFConverter.convert env (converter self) ;;
  for_each (PDFProtector.protect env (protector self)) converted_files.

(** The entry point: [app = App('config.yaml'); app.run()]. *)
Definition main : M unit :=
  app <- __init__ "config.yaml" ;;
  run app.

End Methods.

End App.

(** ** A source tree and the entries [os.walk] yields for it *)

Module Walk.

Inductive tree :=
| Tree (subdirs : list (string * tree)) (files : list string).

(** Top-down: the directory itself, then each sub-directory in turn,
    under the root [join(top, name)]. *)
Fixpoint walk (top : string) (t : tree)
  : list (string * list string * list string) :=
  match t with
  | Tree subdirs files =>
      (top, map fst subdirs, files)
        :: (fix walk_subdirs (l : list (string * tree)) :=
              match l with
              | [] => []
              | (name, sub) :: l' =>
                  (walk (PosixPath.join top name) sub ++ walk_subdirs l')%list
              end) subdirs
  end.

End Walk.

(** ** The loops of [convert], one iteration at a time *)

Module Loop.

Import PDFConverter.

Section WithEnv.

Variable env : Env.

(** One iteration of [for file in files], on the pair of the list built
    so far and the world. *)
Definition file_step (self : t) (root target_dir file : string)
    (st : list string * World) : list string * World :=
  if Str.endswith file ".pptx" then
    match _convert_file env self root file target_dir (snd st) with
    | (Ok pdf_path, w') => (append_if_truthy (fst st) pdf_path, w')
    | (Raise _, w') => (fst st, w')
    end
  else st.

(** The directory the entry [root] is mirrored to, when both
    configured directories are strings and [root] is not empty. *)
Definition target_dir_of (self : t) (root : string) : option string :=
  match source_dir self, dist_dir self with
  | PStr src, PStr dist =>
      match PosixPath.relpath (cwd env) root src with
      | Some relative_path => Some (PosixPath.join dist relative_path)
      | None => None
      end
  | _, _ => None
  end.

(** One iteration of the outer loop. *)
Definition dir_step (self : t) (entry : string * list string * list string)
    (acc : list string) : M (list string) :=
  let '(root, _, files) := entry in
  relative_path <- os_path_relpath env root (source_dir self) ;;
  target_dir <- os_path_join (dist_dir self) relative_path ;;
  os_makedirs env target_dir ;;;
  convert_files env self root target_dir files acc.

(** The run of the outer loop over [entries] from the list [acc0] and
    the world [w] reaches the file [file] of the directory [root], whose
    name ends in [.pptx], and calls [_convert_file] on it in the world
    [w0] with the target directory [target_dir]. *)
Definition reaches_file (self : t) (entries : list (string * list string * list string))
    (acc0 : list string) (w : World) (root file target_dir : string) (w0 : World)
  : Prop :=
  exists pre dirs before later post acc1 w1 s2,
    entries = (pre ++ (root, dirs, before ++ file :: later) :: post)%list
    /\ PDFConverter.convert_walk env self pre acc0 w = (Ok acc1, w1)
    /\ target_dir_of self root = Some target_dir
    /\ Fs.mkdirs_from [] (resolve env target_dir) (fs w1) = (Ok tt, s2)
    /\ Str.endswith file ".pptx" = true
    /\ w0 = snd (fold_left
                   (fun st f => file_step self root target_dir f st)
                   before (acc1, after w1 s2 [EMakedirs target_dir])).

End WithEnv.

End Loop.

(** ** The events of a run *)

Module Log.

(** [w'] has the log of [w] followed by events that all satisfy [P]. *)
Definition extends (P : Event -> Prop) (w w' : World) : Prop :=
  exists evs, log w' = (log w ++ evs)%list /\ Forall P evs.

(** The events the converter logs. *)
Definition converter_event (e : Event) : Prop :=
  match e with
  | EMakedirs _ | ERun _ _ | EIsFile _ _ | EPrint _ => True
  | _ => False
  end.

(** The events of one successful [protect]. *)
Definition protect_events (self : PDFProtector.t) (pdf_path : string) : list Event :=
  [EOpen pdf_path true;
   ESave pdf_path (PDFProtector.encryption_of self);
   EPrint (PDFProtector.msg_protected pdf_path)].

(** The events [protect] may log for the paths of [l]: the file is
    opened for overwriting and saved under the same path, with the one
    encryption record of the protector. *)
Definition protector_event (self : PDFProtector.t) (l : list string) (e : Event) : Prop :=
  match e with
  | EOpen p overwriting => In p l /\ overwriting = true
  | ESave p enc => In p l /\ enc = PDFProtector.encryption_of self
  | EPrint _ => True
  | _ => False
  end.

End Log.

(** The destination name as the specification words it: the name with
    its trailing [.pptx] replaced by [.pdf]. *)
Definition spec_target_file (file target_dir : string) : string :=
  PosixPath.join target_dir
    (Str.take (String.length file - String.length ".pptx") file +:+ ".pdf").

(** ** A concrete run *)

Module Scenario.

(** The source tree [src]: [a/one.pptx], [a/notes.txt], [a/Deck.PPTX]
    and [a/b/two.pptx] to [a/b/five.pptx]. *)
Definition src_tree : Walk.tree :=
  Walk.Tree
    [("a", Walk.Tree
             [("b", Walk.Tree []
                      ["two.pptx"; "three.pptx"; "four.pptx"; "five.pptx"])]
             ["one.pptx"; "notes.txt"; "Deck.PPTX"])]
    [].

Definition converter : PDFConverter.t :=
  PDFConverter.__init__ (PStr "src") (PStr "out") "/opt/homebrew/bin/soffice".

Definition protector : PDFProtector.t := PDFProtector.__init__ (PStr "secret").

Definition cmd_one : string :=
  PDFConverter.convert_command_of converter "src/a" "one.pptx" "out/a".
Definition cmd_two : string :=
  PDFConverter.convert_command_of converter "src/a/b" "two.pptx" "out/a/b".
Definition cmd_three : string :=
  PDFConverter.convert_command_of converter "src/a/b" "three.pptx" "out/a/b".
Definition cmd_four : string :=
  PDFConverter.convert_command_of converter "src/a/b" "four.pptx" "out/a/b".
Definition cmd_five : string :=
  PDFConverter.convert_command_of converter "src/a/b" "five.pptx" "out/a/b".

(** The converter writes [one.pdf] and [five.pdf], fails on [two.pptx]
    with status 1, exits with status 0 on [three.pptx] without writing a
    file, and leaves a [four.pdf] that is no PDF. *)
Definition soffice (cmd : string) (s : FS) : Z * FS :=
  if (cmd =? cmd_one)%string
  then (0, <[ ["w"; "out"; "a"; "one.pdf"] := File "%PDF one" ]> s)
  else if (cmd =? cmd_two)%string then (1, s)
  else if (cmd =? cmd_four)%string
  then (0, <[ ["w"; "out"; "a"; "b"; "four.pdf"] := File "truncated" ]> s)
  else if (cmd =? cmd_five)%string
  then (0, <[ ["w"; "out"; "a"; "b"; "five.pdf"] := File "%PDF five" ]> s)
  else (0, s).

Definition full_config : gmap string pyobj :=
  {[ "source_dir" := PStr "src";
     "dist_dir" := PStr "out";
     "owner_password" := PStr "secret" ]}.

Definition partial_config : gmap string pyobj :=
  {[ "source_dir" := PStr "src"; "owner_password" := PStr "secret" ]}.

Definition env : Env := {|
  cwd := "/w";
  safe_load := fun data =>
    if (data =? "full")%string then Ok (PDict full_config)
    else if (data =? "partial")%string then Ok (PDict partial_config)
    else if (data =? EmptyString)%string then Ok PNone
    else Raise YAMLError;
  os_walk := fun top => Walk.walk top src_tree;
  shell := soffice;
  Pdf := string;
  pikepdf_open := fun p s =>
    match Fs.node_at s (PosixPath.components "/w" p) with
    | Some (File data) =>
        if Str.startswith data "%PDF" then Ok data else Raise (PdfError "not a PDF")
    | _ => Raise FileNotFoundError
    end;
  pikepdf_save := fun pdf p enc s =>
    (Ok tt, <[ PosixPath.components "/w" p := File (pdf +:+ " encrypted") ]> s)
|}.


Definition w0 : World :=
  {| fs := {[ ["w"] := Dir;
              ["w"; "config.yaml"] := File "full";
              ["w"; "partial.yaml"] := File "partial";
              ["w"; "empty.yaml"] := File EmptyString;
              ["w"; "out"] := Dir ]};
     log := [] |}.

Definition app : App.t :=
  {| App.config := {| Config.config := PDict full_config |};
     App.converter := converter;
     App.protector := protector |}.

Definition converted : list string :=
  ["out/a/one.pdf"; "out/a/b/four.pdf"; "out/a/b/five.pdf"].

End Scenario.

(** ** What a run over given entries is expected to do *)

Module Plan.

Import PDFConverter.

(** The names of [files] that pass the test of the inner loop. *)
Definition pptx_files (files : list string) : list string :=
  List.filter (fun file => Str.endswith file ".pptx") files.

Section WithEnv.

Variable env : Env.

(** The target directory of each entry, in order. *)
Definition target_dirs_of (self : t)
    (entries : list (string * list string * list string)) : list string :=
  flat_map (fun entry : string * list string * list string =>
              let '(root, _, _) := entry in
              match Loop.target_dir_of env self root with
              | Some target_dir => [target_dir]
              | None => []
              end) entries.

(** The command line of each [.pptx] file, in the order of the walk. *)
Definition commands_of (self : t)
    (entries : list (string * list string * list string)) : list string :=
  flat_map (fun entry : string * list string * list string =>
              let '(root, _, files) := entry in
              match Loop.target_dir_of env self root with
              | Some target_dir =>
                  map (fun file => convert_command_of self root file target_dir)
                    (pptx_files files)
              | None => []
              end) entries.

(** The destination of each [.pptx] file, in the order of the walk. *)
Definition destinations_of (self : t)
    (entries : list (string * list string * list string)) : list string :=
  flat_map (fun entry : string * list string * list string =>
              let '(root, _, files) := entry in
              match Loop.target_dir_of env self root with
              | Some target_dir =>
                  map (fun file => target_file_of file target_dir) (pptx_files files)
              | None => []
              end) entries.

End WithEnv.

(** The command lines run, and the directories passed to [os.makedirs],
    as a log records them. *)
Definition commands_run (evs : list Event) : list string :=
  flat_map (fun e => match e with ERun cmd _ => [cmd] | _ => [] end) evs.

Definition dirs_made (evs : list Event) : list string :=
  flat_map (fun e => match e with EMakedirs p => [p] | _ => [] end) evs.

End Plan.

(** ** Names of directory entries *)

Module Names.

(** [s] contains the separator. *)
Fixpoint has_sep (s : string) : bool :=
  match s with
  | EmptyString => false
  | String a s' => Ascii.eqb a "/" || has_sep s'
  end.

(** A name a directory listing can hold: not empty, no separator in it,
    and neither [.] nor [..]. *)
Definition plain (name : string) : bool :=
  negb (has_sep name)
  && negb (name =? EmptyString)%string
  && negb (name =? ".")%string
  && negb (name =? "..")%string.


(** A component the loop of [os.path.normpath] keeps. *)
Definition kept (x : string) : Prop := has_sep x = false /\ x <> EmptyString.

End Names.

(** ** Absolute paths *)

Module Abs.
(** The number of leading slashes [normpath] keeps on an absolute path. *)
Definition slashes (q : string) : nat :=
  if Str.startswith q "//" && negb (Str.startswith q "///") then 2%nat else 1%nat.

(** The path [abspath] normalises. *)
Definition absolutize (cwd p : string) : string :=
  if PosixPath.isabs p then p else PosixPath.join cwd p.
End Abs.

(** ** Further concrete surroundings *)

Module Cases.

(** No converter at hand: every command fails and leaves the file system
    as it is. *)
Definition offline : Env := {|
  cwd := cwd Scenario.env;
  safe_load := safe_load Scenario.env;
  os_walk := os_walk Scenario.env;
  shell := fun _ s => (127, s);
  Pdf := string;
  pikepdf_open := pikepdf_open Scenario.env;
  pikepdf_save := pikepdf_save Scenario.env
|}.

(** The source directory does not exist: [os.walk] yields nothing. *)
Definition no_source : Env := {|
  cwd := cwd Scenario.env;
  safe_load := safe_load Scenario.env;
  os_walk := fun _ => [];
  shell := shell Scenario.env;
  Pdf := string;
  pikepdf_open := pikepdf_open Scenario.env;
  pikepdf_save := pikepdf_save Scenario.env
|}.

(** A regular file stands where the destination root should be. *)
Definition w_blocked : World :=
  {| fs := {[ ["w"] := Dir;
              ["w"; "config.yaml"] := File "full";
              ["w"; "out"] := File "a file" ]};
     log := [] |}.

(** No configuration file. *)
Definition w_bare : World :=
  {| fs := {[ ["w"] := Dir ]}; log := [] |}.



End Cases.

(** * Facts *)

(** ** Strings *)

Module StrFacts.

Lemma app_nil (t : string) : EmptyString +:+ t = t.
Proof. reflexivity. Qed.

Lemma app_cons (a : ascii) (s t : string) : String a s +:+ t = String a (s +:+ t).
Proof. reflexivity. Qed.

Lemma app_assoc (a b c : string) : (a +:+ b) +:+ c = a +:+ (b +:+ c).
Proof.
  induction a as [|x a IH]; [reflexivity|]. rewrite !app_cons. now rewrite IH.
Qed.

Lemma length_app (a b : string) :
  String.length (a +:+ b) = (String.length a + String.length b)%nat.
Proof.
  induction a as [|x a IH]; [reflexivity|]. rewrite app_cons. simpl. now rewrite IH.
Qed.

Lemma drop_app_length (a b : string) : Str.drop (String.length a) (a +:+ b) = b.
Proof.
  induction a as [|x a IH]; [now destruct b|]. rewrite app_cons. exact IH.
Qed.

Lemma take_app_length (a b : string) : Str.take (String.length a) (a +:+ b) = a.
Proof.
  induction a as [|x a IH]; [now destruct b|]. rewrite app_cons. simpl. now rewrite IH.
Qed.

Lemma take_drop (n : nat) (s : string) : Str.take n s +:+ Str.drop n s = s.
Proof.
  revert s; induction n as [|n IH]; intros [|a s]; simpl; try reflexivity.
  rewrite app_cons. now rewrite IH.
Qed.

Lemma length_drop (n : nat) (s : string) :
  String.length (Str.drop n s) = (String.length s - n)%nat.
Proof.
  revert s; induction n as [|n IH]; intros [|a s]; simpl; try reflexivity.
  apply IH.
Qed.

(** [endswith] holds exactly of the strings that are built by appending
    the suffix. *)
Lemma endswith_app (pre suf : string) : Str.endswith (pre +:+ suf) suf = true.
Proof.
  unfold Str.endswith. rewrite length_app.
  replace (String.length pre + String.length suf - String.length suf)%nat
    with (String.length pre) by lia.
  rewrite drop_app_length, String.eqb_refl, andb_true_r.
  apply Nat.leb_le. lia.
Qed.

Lemma endswith_inv (s suf : string) :
  Str.endswith s suf = true -> exists pre, s = pre +:+ suf.
Proof.
  unfold Str.endswith. intros H. apply andb_true_iff in H as [_ H].
  apply String.eqb_eq in H.
  set (n := (String.length s - String.length suf)%nat) in *.
  exists (Str.take n s). rewrite <- H. symmetry. apply take_drop.
Qed.

Lemma endswith_same_length (pre a suf : string) :
  String.length a = String.length suf ->
  Str.endswith (pre +:+ a) suf = (a =? suf)%string.
Proof.
  intros Hlen. unfold Str.endswith. rewrite length_app, <- Hlen.
  replace (String.length pre + String.length a - String.length a)%nat
    with (String.length pre) by lia.
  rewrite drop_app_length.
  replace (String.length a <=? String.length pre + String.length a)%nat with true.
  - reflexivity.
  - symmetry. apply Nat.leb_le. lia.
Qed.

Lemma length_lower (s : string) : String.length (Str.lower s) = String.length s.
Proof. induction s as [|a s IH]; simpl; [reflexivity | now rewrite IH]. Qed.

Lemma rfind_bounds (c : ascii) (s : string) :
  -1 <= Str.rfind c s < Z.of_nat (String.length s).
Proof.
  induction s as [|a s IH]; simpl String.length; simpl Str.rfind; [lia|].
  destruct (0 <=? Str.rfind c s) eqn:E.
  - apply Z.leb_le in E. lia.
  - destruct (Ascii.eqb a c); lia.
Qed.

Lemma rfind_app_absent (c : ascii) (a b : string) :
  Str.rfind c b = -1 -> Str.rfind c (a +:+ b) = Str.rfind c a.
Proof.
  intros Hb. induction a as [|x a IH]; [exact Hb|].
  rewrite app_cons. simpl. now rewrite IH.
Qed.

Lemma rfind_app_last (c : ascii) (a b : string) :
  Str.rfind c b = -1 ->
  Str.rfind c (a +:+ String c b) = Z.of_nat (String.length a).
Proof.
  intros Hb. induction a as [|x a IH].
  - rewrite app_nil. simpl. rewrite Hb. simpl. now rewrite Ascii.eqb_refl.
  - rewrite app_cons. simpl Str.rfind. rewrite IH.
    replace (0 <=? Z.of_nat (String.length a)) with true
      by (symmetry; apply Z.leb_le; lia).
    simpl String.length. lia.
Qed.

Lemma slice1_app (pre : string) (a : ascii) (s : string) :
  Str.slice1 (pre +:+ String a s) (Z.of_nat (String.length pre))
  = String a EmptyString.
Proof.
  unfold Str.slice1. rewrite Nat2Z.id, drop_app_length. reflexivity.
Qed.

Lemma splitext_scan_spec (s pre rest : string) :
  PosixPath.splitext_scan (String.length s) (pre +:+ s +:+ rest)
    (Z.of_nat (String.length pre))
    (Z.of_nat (String.length pre + String.length s))
  = if Str.all_dots s then (pre +:+ s +:+ rest, EmptyString)
    else (pre +:+ s, rest).
Proof.
  revert pre. induction s as [|a s IH]; intros pre.
  - reflexivity.
  - simpl String.length. cbn [PosixPath.splitext_scan Str.all_dots].
    rewrite app_cons, slice1_app.
    destruct (Ascii.eqb a ".") eqn:Ea.
    + apply Ascii.eqb_eq in Ea. subst a.
      change (negb (String "." EmptyString =? ".")%string) with false.
      cbn [andb].
      specialize (IH (pre +:+ String "." EmptyString)).
      rewrite !app_assoc, !app_cons, !app_nil in IH.
      rewrite length_app in IH. simpl String.length in IH.
      replace (Z.of_nat (String.length pre) + 1)
        with (Z.of_nat (String.length pre + 1)) by lia.
      replace (String.length pre + S (String.length s))%nat
        with (String.length pre + 1 + String.length s)%nat by lia.
      rewrite IH. reflexivity.
    + replace (negb (String a EmptyString =? ".")%string) with true.
      2:{ symmetry. apply negb_true_iff. cbn [String.eqb]. now rewrite Ea. }
      cbn [andb]. rewrite Nat2Z.id.
      change (S (String.length s)) with (String.length (String a s)).
      rewrite <- (length_app pre (String a s)).
      rewrite <- app_cons, <- app_assoc.
      now rewrite take_app_length, drop_app_length.
Qed.

(** [splitext] on a name that ends in [.pptx]: the suffix is split off
    unless nothing but dots precedes it in the last component. *)
Lemma splitext_pptx (stem : string) :
  PosixPath.splitext (stem +:+ ".pptx")
  = if Str.all_dots (PosixPath.basename stem) then (stem +:+ ".pptx", EmptyString)
    else (stem, ".pptx").
Proof.
  unfold PosixPath.splitext, PosixPath.basename.
  rewrite (rfind_app_absent "/" stem ".pptx") by reflexivity.
  rewrite (rfind_app_last "." stem "pptx") by reflexivity.
  pose proof (rfind_bounds "/" stem) as Hb.
  set (k := Str.rfind "/" stem) in *.
  replace (k <? Z.of_nat (String.length stem)) with true
    by (symmetry; apply Z.ltb_lt; lia).
  set (n := Z.to_nat (k + 1)).
  assert (Hn : (n <= String.length stem)%nat) by lia.
  pose proof (take_drop n stem) as Htd.
  assert (Hlt : String.length (Str.take n stem) = n).
  { pose proof (length_drop n stem) as Hd.
    pose proof (f_equal String.length Htd) as Hl.
    rewrite length_app in Hl. lia. }
  pose proof (splitext_scan_spec (Str.drop n stem) (Str.take n stem) ".pptx") as Hs.
  rewrite <- app_assoc, Htd in Hs.
  rewrite Hlt, length_drop in Hs.
  replace (Z.to_nat (Z.of_nat (String.length stem) - (k + 1)))
    with (String.length stem - n)%nat by lia.
  replace (k + 1) with (Z.of_nat n) by lia.
  replace (Z.of_nat (String.length stem))
    with (Z.of_nat (n + (String.length stem - n))) by lia.
  exact Hs.
Qed.

End StrFacts.

(** ** Directory creation *)

Module FsFacts.

Import Fs.

Lemma chain_from_longer (pre rest q : list string) :
  In q (chain_from pre rest) -> (length pre < length q)%nat.
Proof.
  revert pre. induction rest as [|c rest IH]; intros pre; [intros []|].
  intros [<- | Hq].
  - rewrite length_app. simpl. lia.
  - apply IH in Hq. rewrite length_app in Hq. simpl in Hq. lia.
Qed.

Lemma chain_from_last (pre rest : list string) :
  rest <> [] -> In (pre ++ rest)%list (chain_from pre rest).
Proof.
  revert pre. induction rest as [|c rest IH]; intros pre Hne; [congruence|].
  destruct rest as [|c' rest].
  - left. reflexivity.
  - right. replace (pre ++ c :: c' :: rest)%list with ((pre ++ [c]) ++ c' :: rest)%list
      by now rewrite <- app_assoc.
    apply IH. discriminate.
Qed.

Lemma chain_from_prefix (pre rest q : list string) :
  In q (chain_from pre rest) ->
  exists k, (0 < k <= length rest)%nat /\ q = (pre ++ take k rest)%list.
Proof.
  revert pre. induction rest as [|c rest IH]; intros pre; [intros []|].
  intros [<- | Hq].
  - exists 1%nat. simpl. split; [lia|]. now rewrite take_0.
  - apply IH in Hq as (k & Hk & ->). exists (S k). simpl. split; [lia|].
    now rewrite <- app_assoc.
Qed.

(** [mkdirs_from] succeeds when no regular file is in the way; then every
    path of the chain is a directory, nothing else has changed, and a
    second call changes nothing. *)
Lemma mkdirs_from_ok (rest pre : list string) (s : FS) :
  unblocked s (chain_from pre rest) ->
  exists s',
    Fs.mkdirs_from pre rest s = (Ok tt, s')
    /\ (forall q, In q (chain_from pre rest) -> s' !! q = Some Dir)
    /\ (forall q, ~ In q (chain_from pre rest) -> s' !! q = s !! q)
    /\ Fs.mkdirs_from pre rest s' = (Ok tt, s').
Proof.
  revert pre s. induction rest as [|c rest IH]; intros pre s Hfree.
  - exists s. cbn. split; [reflexivity|]. split; [intros q []|]. split; reflexivity.
  - cbn [Fs.mkdirs_from chain_from] in *.
    set (q0 := (pre ++ [c])%list) in *.
    assert (Hq0 : ~ In q0 (chain_from q0 rest)).
    { intros Hin. apply chain_from_longer in Hin. lia. }
    destruct (s !! q0) as [[|data]|] eqn:E0.
    + destruct (IH q0 s) as (s' & Hrun & Hdirs & Hframe & Hidem).
      { intros q data Hq. apply Hfree. now right. }
      exists s'. assert (E0' : s' !! q0 = Some Dir) by now rewrite Hframe.
      split; [|split; [|split]].
      * exact Hrun.
      * intros q [<- | Hq]; [exact E0' | now apply Hdirs].
      * intros q Hq. apply Hframe. intros Hin. apply Hq. now right.
      * now rewrite E0'.
    + exfalso. apply (Hfree q0 data); [now left | exact E0].
    + destruct (IH q0 (<[q0 := Dir]> s)) as (s' & Hrun & Hdirs & Hframe & Hidem).
      { intros q data Hq. destruct (decide (q = q0)) as [->|Hne].
        - now rewrite lookup_insert_eq.
        - rewrite lookup_insert_ne by congruence. apply Hfree. now right. }
      exists s'.
      assert (E0' : s' !! q0 = Some Dir)
        by now rewrite Hframe, lookup_insert_eq.
      split; [|split; [|split]].
      * exact Hrun.
      * intros q [<- | Hq]; [exact E0' | now apply Hdirs].
      * intros q Hq. rewrite Hframe.
        -- apply lookup_insert_ne. intros ->. apply Hq. now left.
        -- intros Hin. apply Hq. now right.
      * now rewrite E0'.
Qed.


Lemma chain_is_dir (s : FS) (pre rest q : list string) :
  In q (chain_from pre rest) -> s !! q = Some Dir -> Fs.is_dir s q = true.
Proof.
  intros Hq Hdir. apply chain_from_longer in Hq.
  unfold Fs.is_dir, Fs.node_at. destruct q; [simpl in Hq; lia|]. now rewrite Hdir.
Qed.

(** A call that succeeded met no regular file. *)
Lemma mkdirs_from_ok_unblocked (rest pre : list string) (s s' : FS) :
  Fs.mkdirs_from pre rest s = (Ok tt, s') -> unblocked s (chain_from pre rest).
Proof.
  revert pre s. induction rest as [|c rest IH]; intros pre s.
  - intros _ q data [].
  - cbn [Fs.mkdirs_from chain_from].
    set (q0 := (pre ++ [c])%list).
    destruct (s !! q0) as [[|data0]|] eqn:E0.
    + intros Hrun q data [<- | Hq]; [congruence|].
      now apply (IH _ _ Hrun).
    + discriminate.
    + intros Hrun q data [<- | Hq]; [congruence|].
      intros Hfile. apply (IH _ _ Hrun q data Hq).
      rewrite lookup_insert_ne; [exact Hfile|].
      intros <-. apply chain_from_longer in Hq. lia.
Qed.

(** After a call that succeeded, the directory and its ancestors exist. *)
Lemma mkdirs_ok_dirs (comps : list string) (s s' : FS) :
  Fs.mkdirs_from [] comps s = (Ok tt, s') ->
  Fs.is_dir s' comps = true
  /\ forall q, In q (chain comps) -> Fs.is_dir s' q = true.
Proof.
  intros Hrun.
  destruct (mkdirs_from_ok comps [] s (mkdirs_from_ok_unblocked _ _ _ _ Hrun))
    as (s'' & Hrun' & Hdirs & _).
  rewrite Hrun in Hrun'. injection Hrun' as <-.
  assert (Hchain : forall q, In q (chain comps) -> Fs.is_dir s' q = true).
  { intros q Hq. eapply chain_is_dir; [exact Hq | now apply Hdirs]. }
  split; [|exact Hchain].
  destruct comps as [|c comps]; [reflexivity|].
  apply Hchain. apply (chain_from_last [] (c :: comps)). discriminate.
Qed.


(** A regular file in the way makes [mkdirs_from] raise. *)
Lemma mkdirs_from_blocked (rest pre : list string) (s : FS) :
  ~ unblocked s (chain_from pre rest) ->
  exists e s', Fs.mkdirs_from pre rest s = (Raise e, s').
Proof.
  revert pre s. induction rest as [|c rest IH]; intros pre s Hblocked.
  - exfalso. apply Hblocked. intros q data [].
  - cbn [Fs.mkdirs_from chain_from] in *.
    set (q0 := (pre ++ [c])%list) in *.
    destruct (s !! q0) as [[|data]|] eqn:E0.
    + apply IH. intros Hfree. apply Hblocked. intros q data [<- | Hq].
      * congruence.
      * now apply Hfree.
    + eauto.
    + apply IH. intros Hfree. apply Hblocked. intros q data [<- | Hq].
      * congruence.
      * intros Hs. apply (Hfree q data Hq).
        rewrite lookup_insert_ne; [exact Hs|].
        intros <-. apply chain_from_longer in Hq. lia.
Qed.

End FsFacts.

(** ** The converter *)

Module ConverterFacts.

Import PDFConverter Loop.

Section WithEnv.

Variable env : Env.

(** The three ways [_convert_file] ends, by the exit status of the
    command and the presence of the destination file afterwards. *)
Lemma _convert_file_cases (self : t) (root file target_dir : string) (w : World) :
  let cmd := convert_command_of self root file target_dir in
  let target := target_file_of file target_dir in
  let code := fst (shell env cmd (fs w)) in
  let s := snd (shell env cmd (fs w)) in
  _convert_file env self root file target_dir w =
    if code =? 0 then
      if Fs.is_file s (resolve env target)
      then (Ok (Some target),
            after w s [ERun cmd code; EIsFile target true; EPrint (msg_converted file)])
      else (Ok None,
            after w s [ERun cmd code; EIsFile target false; EPrint (msg_not_found file)])
    else (Ok None, after w s [ERun cmd code; EPrint (msg_failed file)]).
Proof.
  intros cmd target code s. subst code s.
  unfold _convert_file, try_except_CalledProcessError, bind, subprocess_run,
    Path_is_file, print, ret, emit, after.
  fold cmd target.
  destruct (shell env cmd (fs w)) as [code s]. cbn [fst snd].
  destruct (code =? 0); cbn [fs log].
  - destruct (Fs.is_file s (resolve env target)); cbn [fs log];
      now rewrite <- !app_assoc.
  - now rewrite <- !app_assoc.
Qed.

(** [_convert_file] never raises: the only exception its body can raise
    is the one it handles. *)
Lemma _convert_file_total (self : t) (root file target_dir : string) (w : World) :
  exists r w', _convert_file env self root file target_dir w = (Ok r, w').
Proof.
  rewrite _convert_file_cases. cbv zeta.
  destruct (_ =? 0); [destruct (Fs.is_file _ _)|]; eauto.
Qed.

(** The inner loop is the left fold of [file_step]; it never raises. *)
Lemma convert_files_fold (self : t) (root target_dir : string)
    (files : list string) (acc : list string) (w : World) :
  convert_files env self root target_dir files acc w =
    let st := fold_left (fun st file => file_step env self root target_dir file st)
                files (acc, w) in
    (Ok (fst st), snd st).
Proof.
  revert acc w. induction files as [|file files IH]; intros acc w.
  - reflexivity.
  - cbn [convert_files fold_left].
    destruct (Str.endswith file ".pptx") eqn:Eext.
    + unfold bind.
      destruct (_convert_file_total self root file target_dir w) as (r & w' & E).
      rewrite E, IH.
      replace (file_step env self root target_dir file (acc, w))
        with (append_if_truthy acc r, w'); [reflexivity|].
      unfold file_step. cbn [fst snd]. now rewrite Eext, E.
    + rewrite IH.
      replace (file_step env self root target_dir file (acc, w)) with (acc, w);
        [reflexivity|].
      unfold file_step. now rewrite Eext.
Qed.

Lemma convert_walk_cons (self : t) entry entries (acc : list string) (w : World) :
  convert_walk env self (entry :: entries) acc w =
    (acc' <- dir_step env self entry acc ;; convert_walk env self entries acc') w.
Proof.
  destruct entry as [[root dirs] files]. cbn [convert_walk dir_step]. unfold bind.
  destruct (os_path_relpath env root (source_dir self) w) as [[rel|e] w1]; [|reflexivity].
  destruct (os_path_join (dist_dir self) rel w1) as [[tdir|e] w2]; [|reflexivity].
  destruct (os_makedirs env tdir w2) as [[[]|e] w3]; reflexivity.
Qed.

Lemma convert_walk_app (self : t) pre post (acc : list string) (w : World) :
  convert_walk env self (pre ++ post) acc w =
    (acc' <- convert_walk env self pre acc ;; convert_walk env self post acc') w.
Proof.
  revert acc w. induction pre as [|entry pre IH]; intros acc w.
  - reflexivity.
  - rewrite <- app_comm_cons, convert_walk_cons. unfold bind.
    rewrite convert_walk_cons. unfold bind.
    destruct (dir_step env self entry acc w) as [[acc'|e] w1]; [|reflexivity].
    rewrite IH. reflexivity.
Qed.

(** An iteration either fails before touching anything (no target
    directory can be computed), or calls [os.makedirs] on the target
    directory and, if that succeeds, runs the inner loop. *)
Lemma dir_step_cases (self : t) root dirs files (acc : list string) (w : World) :
  dir_step env self (root, dirs, files) acc w =
    match target_dir_of env self root with
    | None =>
        (Raise (match source_dir self with
                | PStr src =>
                    match PosixPath.relpath (cwd env) root src with
                    | None => ValueError
                    | Some _ => TypeError
                    end
                | _ => TypeError
                end), w)
    | Some target_dir =>
        match Fs.mkdirs_from [] (resolve env target_dir) (fs w) with
        | (Ok _, s) =>
            convert_files env self root target_dir files acc
              (after w s [EMakedirs target_dir])
        | (Raise e, s) => (Raise e, after w s [EMakedirs target_dir])
        end
    end.
Proof.
  unfold dir_step, target_dir_of, bind, os_path_relpath, os_path_join,
    os_makedirs, after, raise, ret.
  destruct (source_dir self); try reflexivity.
  destruct (PosixPath.relpath (cwd env) root s) as [rel|];
    destruct (dist_dir self); try reflexivity.
  destruct (Fs.mkdirs_from _ _ _) as [[[]|e] s']; reflexivity.
Qed.

End WithEnv.

End ConverterFacts.

(** ** The configuration accessor *)

Module ConfigFacts.

Section WithEnv.

Variable env : Env.

Lemma init_accepts (config_path data : string) (doc : pyobj) (w : World) :
  Fs.node_at (fs w) (resolve env config_path) = Some (File data) ->
  safe_load env data = Ok doc ->
  Config.__init__ env config_path w = (Ok {| Config.config := doc |}, w).
Proof.
  intros Hfile Hload. unfold Config.__init__, bind, open_read, lift, ret.
  now rewrite Hfile, Hload.
Qed.

Lemma get_dict (d : gmap string pyobj) (key : string) (w : World) :
  Config.get {| Config.config := PDict d |} key w
  = (Ok (default PNone (d !! key)), w).
Proof. reflexivity. Qed.

Lemma get_not_dict (doc : pyobj) (key : string) (w : World) :
  (forall d, doc <> PDict d) ->
  Config.get {| Config.config := doc |} key w = (Raise AttributeError, w).
Proof.
  intros Hdoc. unfold Config.get. cbn [Config.config].
  destruct doc; try reflexivity. now destruct (Hdoc d).
Qed.

End WithEnv.

End ConfigFacts.

(** ** Growth of the log *)

Module LogFacts.

Import Log.

Lemma extends_refl (P : Event -> Prop) (w : World) : extends P w w.
Proof. exists []. split; [now rewrite app_nil_r | constructor]. Qed.

Lemma extends_trans (P : Event -> Prop) (w1 w2 w3 : World) :
  extends P w1 w2 -> extends P w2 w3 -> extends P w1 w3.
Proof.
  intros (e1 & H1 & F1) (e2 & H2 & F2). exists (e1 ++ e2)%list. split.
  - now rewrite H2, H1, <- app_assoc.
  - apply Forall_app. now split.
Qed.

Lemma extends_after (P : Event -> Prop) (w : World) (s : FS) (evs : list Event) :
  Forall P evs -> extends P w (after w s evs).
Proof. intros HF. exists evs. now split. Qed.

Section WithEnv.

Variable env : Env.

Lemma file_step_extends (self : PDFConverter.t) (root target_dir file : string)
    (st : list string * World) :
  extends converter_event (snd st)
    (snd (Loop.file_step env self root target_dir file st)).
Proof.
  unfold Loop.file_step.
  destruct (Str.endswith file ".pptx"); [|apply extends_refl].
  rewrite ConverterFacts._convert_file_cases. cbv zeta.
  destruct (_ =? 0); [destruct (Fs.is_file _ _)|]; cbn [snd];
    apply extends_after; repeat constructor.
Qed.

Lemma files_fold_extends (self : PDFConverter.t) (root target_dir : string)
    (files : list string) (st : list string * World) :
  extends converter_event (snd st)
    (snd (fold_left
            (fun st file => Loop.file_step env self root target_dir file st)
            files st)).
Proof.
  revert st. induction files as [|file files IH]; intros st.
  - apply extends_refl.
  - cbn [fold_left]. eapply extends_trans; [apply file_step_extends | apply IH].
Qed.

Lemma dir_step_extends (self : PDFConverter.t) entry (acc : list string) (w : World) :
  extends converter_event w (snd (Loop.dir_step env self entry acc w)).
Proof.
  destruct entry as [[root dirs] files].
  rewrite ConverterFacts.dir_step_cases.
  destruct (Loop.target_dir_of env self root) as [target_dir|];
    [|apply extends_refl].
  destruct (Fs.mkdirs_from _ _ _) as [[[]|e] s].
  - rewrite ConverterFacts.convert_files_fold. cbv zeta. cbn [snd].
    eapply extends_trans; [|apply files_fold_extends].
    apply extends_after. repeat constructor.
  - apply extends_after. repeat constructor.
Qed.

Lemma convert_walk_extends (self : PDFConverter.t) entries (acc : list string) (w : World) :
  extends converter_event w (snd (PDFConverter.convert_walk env self entries acc w)).
Proof.
  revert acc w. induction entries as [|entry entries IH]; intros acc w.
  - apply extends_refl.
  - rewrite ConverterFacts.convert_walk_cons. unfold bind.
    pose proof (dir_step_extends self entry acc w) as Hd.
    destruct (Loop.dir_step env self entry acc w) as [[acc'|e] w1];
      cbn [snd] in *; [|exact Hd].
    eapply extends_trans; [exact Hd | apply IH].
Qed.

Lemma convert_extends (self : PDFConverter.t) (w : World) :
  extends converter_event w (snd (PDFConverter.convert env self w)).
Proof.
  unfold PDFConverter.convert, bind, os_walk_entries.
  destruct (PDFConverter.source_dir self); try apply extends_refl.
  apply convert_walk_extends.
Qed.

End WithEnv.

End LogFacts.

(** ** The protector *)

Module ProtectorFacts.

Import PDFProtector Log.

Section WithEnv.

Variable env : Env.

(** The three ways [protect] ends. *)
Lemma protect_cases (self : t) (pdf_path : string) (w : World) :
  protect env self pdf_path w =
    match pikepdf_open env pdf_path (fs w) with
    | Raise e => (Raise e, after w (fs w) [EOpen pdf_path true])
    | Ok pdf =>
        match pikepdf_save env pdf pdf_path (encryption_of self) (fs w) with
        | (Ok _, s) => (Ok tt, after w s (protect_events self pdf_path))
        | (Raise e, s) =>
            (Raise e,
             after w s [EOpen pdf_path true; ESave pdf_path (encryption_of self)])
        end
    end.
Proof.
  unfold protect, bind, pikepdf_open_overwriting, Pdf_save, print, emit, after,
    protect_events.
  destruct (pikepdf_open env pdf_path (fs w)) as [pdf|e]; cbn [fs log].
  - destruct (pikepdf_save _ _ _ _ _) as [[[]|e] s]; cbn [fs log];
      now rewrite <- !app_assoc.
  - now destruct w.
Qed.

Lemma for_each_app {A} (body : A -> M unit) (pre post : list A) (w : World) :
  for_each body (pre ++ post) w = (for_each body pre ;;; for_each body post) w.
Proof.
  revert w. induction pre as [|x pre IH]; intros w; [reflexivity|].
  rewrite <- app_comm_cons. cbn [for_each]. unfold bind.
  destruct (body x w) as [[[]|e] w1]; [|reflexivity].
  rewrite IH. reflexivity.
Qed.

(** When every file is protected, the log grows by the events of each
    file in list order. *)
Lemma protect_all_log (self : t) (l : list string) (w w' : World) :
  for_each (protect env self) l w = (Ok tt, w') ->
  log w' = (log w ++ flat_map (protect_events self) l)%list.
Proof.
  revert w. induction l as [|p l IH]; intros w.
  - cbn. intros [= <-]. now rewrite app_nil_r.
  - cbn [for_each flat_map]. unfold bind. rewrite protect_cases.
    destruct (pikepdf_open env p (fs w)) as [pdf|e]; [|discriminate].
    destruct (pikepdf_save _ _ _ _ _) as [[[]|e] s]; [|discriminate].
    intros H. apply IH in H. rewrite H. cbn [after log].
    now rewrite <- app_assoc.
Qed.

Lemma protector_event_mono (self : t) (l l' : list string) (e : Event) :
  (forall p, In p l -> In p l') ->
  protector_event self l e -> protector_event self l' e.
Proof. intros Hsub. destruct e; cbn; intuition. Qed.

(** Whatever the outcome, the loop only logs protector events. *)
Lemma protect_all_extends (self : t) (l : list string) (w : World) :
  Log.extends (protector_event self l) w
    (snd (for_each (protect env self) l w)).
Proof.
  revert w. induction l as [|p l IH]; intros w.
  - apply LogFacts.extends_refl.
  - cbn [for_each]. unfold bind. rewrite protect_cases.
    destruct (pikepdf_open env p (fs w)) as [pdf|e].
    + destruct (pikepdf_save _ _ _ _ _) as [[[]|e] s]; cbn [snd].
      * apply (LogFacts.extends_trans _ _ (after w s (protect_events self p))).
        -- apply LogFacts.extends_after.
           repeat constructor; cbn; auto.
        -- destruct (IH (after w s (protect_events self p))) as (evs & Hlog & HF).
           exists evs. split; [exact Hlog|].
           eapply Forall_impl; [exact HF|].
           intros e. apply protector_event_mono. intros q Hq. now right.
      * apply LogFacts.extends_after. repeat constructor; cbn; auto.
    + cbn [snd]. apply LogFacts.extends_after. repeat constructor; cbn; auto.
Qed.

End WithEnv.

End ProtectorFacts.

(** ** Where the entries of the result list come from *)

Module OriginFacts.

Import PDFConverter Loop ConverterFacts.

Section WithEnv.

Variable env : Env.

Lemma in_append_if_truthy (l : list string) (v : option string) (p : string) :
  In p (append_if_truthy l v) -> In p l \/ v = Some p.
Proof.
  unfold append_if_truthy. destruct v as [q|]; [|now left].
  destruct (truthy_opt (Some q)); [|now left].
  intros Hin. apply in_app_or in Hin as [Hin | [<- | []]]; auto.
Qed.

(** [_convert_file] returns a path exactly when the command exits with
    status zero and the destination is a regular file afterwards. *)
Lemma _convert_file_some (self : t) (root file target_dir p : string) (w w' : World) :
  _convert_file env self root file target_dir w = (Ok (Some p), w') ->
  let cmd := convert_command_of self root file target_dir in
  p = target_file_of file target_dir
  /\ fst (shell env cmd (fs w)) = 0
  /\ Fs.is_file (snd (shell env cmd (fs w))) (resolve env p) = true
  /\ w' = after w (snd (shell env cmd (fs w)))
            [ERun cmd 0; EIsFile p true; EPrint (msg_converted file)].
Proof.
  rewrite _convert_file_cases. cbv zeta.
  destruct (_ =? 0) eqn:Ecode; [|discriminate].
  apply Z.eqb_eq in Ecode.
  destruct (Fs.is_file _ _) eqn:Efile; [|discriminate].
  intros [= <- <-]. rewrite Ecode. auto.
Qed.

Lemma files_origin (self : t) (root target_dir : string) (files acc : list string)
    (w : World) (p : string) :
  let step := fun st f => file_step env self root target_dir f st in
  In p (fst (fold_left step files (acc, w))) ->
  In p acc
  \/ exists before file later w',
       files = (before ++ file :: later)%list
       /\ Str.endswith file ".pptx" = true
       /\ _convert_file env self root file target_dir
            (snd (fold_left step before (acc, w))) = (Ok (Some p), w').
Proof.
  intros step. induction files as [|file files IH] using rev_ind.
  - now left.
  - rewrite fold_left_app. cbn [fold_left].
    set (st := fold_left step files (acc, w)) in *.
    unfold step at 1, file_step.
    destruct (Str.endswith file ".pptx") eqn:Eext.
    + destruct (_convert_file env self root file target_dir (snd st))
        as [[r|e] w'] eqn:Ecall; cbn [fst].
      * intros Hin. apply in_append_if_truthy in Hin as [Hin | ->].
        -- destruct (IH Hin) as [Hacc | (b & f & l & w'' & -> & Hf & Hc)]; [now left|].
           right. exists b, f, (l ++ [file])%list, w''.
           now rewrite <- app_assoc.
        -- right. exists files, file, [], w'. auto.
      * intros Hin.
        destruct (IH Hin) as [Hacc | (b & f & l & w'' & -> & Hf & Hc)]; [now left|].
        right. exists b, f, (l ++ [file])%list, w''. now rewrite <- app_assoc.
    + intros Hin.
      destruct (IH Hin) as [Hacc | (b & f & l & w'' & -> & Hf & Hc)]; [now left|].
      right. exists b, f, (l ++ [file])%list, w''. now rewrite <- app_assoc.
Qed.

Lemma reaches_file_more (self : t) entries more (acc0 : list string) (w : World)
    (root file target_dir : string) (w0 : World) :
  reaches_file env self entries acc0 w root file target_dir w0 ->
  reaches_file env self (entries ++ more) acc0 w root file target_dir w0.
Proof.
  intros (pre & dirs & before & later & post & acc1 & w1 & s2 & -> & H).
  exists pre, dirs, before, later, (post ++ more)%list, acc1, w1, s2.
  split; [|exact H]. now rewrite <- app_assoc.
Qed.

Lemma walk_origin (self : t) entries (acc0 : list string) (w : World)
    (l : list string) (w' : World) (p : string) :
  convert_walk env self entries acc0 w = (Ok l, w') ->
  In p l ->
  In p acc0
  \/ exists root file target_dir w0 w0',
       reaches_file env self entries acc0 w root file target_dir w0
       /\ _convert_file env self root file target_dir w0 = (Ok (Some p), w0').
Proof.
  revert l w'. induction entries as [|entry entries IH] using rev_ind; intros l w'.
  - cbn. intros [= <- <-]. now left.
  - rewrite convert_walk_app. unfold bind.
    destruct (convert_walk env self entries acc0 w) as [[acc1|e] w1] eqn:Epre;
      [|discriminate].
    rewrite convert_walk_cons. unfold bind.
    destruct entry as [[root dirs] files].
    destruct (dir_step env self (root, dirs, files) acc1 w1) as [[acc2|e] w2] eqn:Estep;
      [|discriminate].
    cbn [convert_walk]. intros [= <- <-] Hin.
    rewrite dir_step_cases in Estep.
    destruct (target_dir_of env self root) as [target_dir|] eqn:Etarget; [|discriminate].
    destruct (Fs.mkdirs_from _ _ _) as [[[]|e] s2] eqn:Emk; [|discriminate].
    rewrite convert_files_fold in Estep. cbv zeta in Estep.
    injection Estep as <- <-.
    apply files_origin in Hin as [Hin | (before & file & later & w0' & -> & Hext & Hcall)].
    + destruct (IH _ _ eq_refl Hin) as [Hacc | (r & f & t' & w0 & w0' & Hreach & Hcall)];
        [now left|].
      right. exists r, f, t', w0, w0'. split; [|exact Hcall].
      now apply reaches_file_more.
    + right. eexists root, file, target_dir, _, w0'. split; [|exact Hcall].
      exists entries, dirs, before, later, [], acc1, w1, s2. auto 10.
Qed.

End WithEnv.

End OriginFacts.

(** ** The concrete run *)

Module ScenarioFacts.

Import Scenario.

Example walk_entries :
  os_walk env "src"
  = [("src", ["a"], []);
     ("src/a", ["b"], ["one.pptx"; "notes.txt"; "Deck.PPTX"]);
     ("src/a/b", [], ["two.pptx"; "three.pptx"; "four.pptx"; "five.pptx"])].
Proof. reflexivity. Qed.

Example target_dirs :
  map (Loop.target_dir_of env converter) ["src"; "src/a"; "src/a/b"]
  = [Some "out/."; Some "out/a"; Some "out/a/b"].
Proof. reflexivity. Qed.

Example splitext_names :
  map PosixPath.splitext ["one.pptx"; "a.b.pptx"; ".pptx"; "..pptx"; ".a.pptx"]
  = [("one", ".pptx"); ("a.b", ".pptx"); (".pptx", EmptyString);
     ("..pptx", EmptyString); (".a", ".pptx")].
Proof. reflexivity. Qed.

Example convert_result :
  fst (PDFConverter.convert env converter w0) = Ok converted.
Proof. vm_compute. reflexivity. Qed.

Example mirrored_directories :
  let s := fs (snd (PDFConverter.convert env converter w0)) in
  map (Fs.is_dir s) [["w"; "out"]; ["w"; "out"; "a"]; ["w"; "out"; "a"; "b"]]
  = [true; true; true].
Proof. vm_compute. reflexivity. Qed.

Example main_result :
  fst (App.main env w0) = Raise (PdfError "not a PDF")
  /\ List.filter (fun e => match e with EOpen _ _ => true | _ => false end)
       (log (snd (App.main env w0)))
     = [EOpen "out/a/one.pdf" true; EOpen "out/a/b/four.pdf" true].
Proof. vm_compute. split; reflexivity. Qed.

End ScenarioFacts.

(** * The claims *)

(** C8: a key that the loaded mapping lacks makes [Config.get] return
    [None] instead of raising, and loading the file validates nothing;
    the failure comes where the absent value is first used: for
    [dist_dir] that is the [TypeError] of [Path(None)] in [App.run],
    raised before anything is done. *)
Theorem C8_absent_key_yields_none
    (env : Env) (config_path data : string) (d : gmap string pyobj)
    (key : string) (w : World) :
  Fs.node_at (fs w) (resolve env config_path) = Some (File data) ->
  safe_load env data = Ok (PDict d) ->
  d !! key = None ->
  Config.__init__ env config_path w = (Ok {| Config.config := PDict d |}, w)
  /\ Config.get {| Config.config := PDict d |} key w = (Ok PNone, w)
  /\ (key = "dist_dir" ->
      exists app,
        App.__init__ env config_path w = (Ok app, w)
        /\ App.run env app w = (Raise TypeError, w)).
Proof.
  intros Hfile Hload Hkey.
  pose proof (ConfigFacts.init_accepts env _ _ _ _ Hfile Hload) as Hinit.
  split; [exact Hinit|]. split.
  - rewrite ConfigFacts.get_dict. now rewrite Hkey.
  - intros ->. eexists. split.
    + unfold App.__init__, bind. rewrite Hinit.
      rewrite !ConfigFacts.get_dict. reflexivity.
    + unfold App.run, bind. cbn [App.config].
      rewrite ConfigFacts.get_dict, Hkey. reflexivity.
Qed.

Lemma C8_absent_key_yields_none_witness :
  Fs.node_at (fs Scenario.w0) (resolve Scenario.env "partial.yaml")
    = Some (File "partial")
  /\ safe_load Scenario.env "partial" = Ok (PDict Scenario.partial_config)
  /\ Scenario.partial_config !! "dist_dir" = None
  /\ Config.get {| Config.config := PDict Scenario.partial_config |} "dist_dir"
       Scenario.w0 = (Ok PNone, Scenario.w0).
Proof.
  assert (H1 : Fs.node_at (fs Scenario.w0) (resolve Scenario.env "partial.yaml")
               = Some (File "partial")) by reflexivity.
  assert (H2 : safe_load Scenario.env "partial" = Ok (PDict Scenario.partial_config))
    by reflexivity.
  assert (H3 : Scenario.partial_config !! "dist_dir" = None) by reflexivity.
  refine (conj H1 (conj H2 (conj H3 _))).
  exact (proj1 (proj2 (C8_absent_key_yields_none Scenario.env "partial.yaml"
                         "partial" Scenario.partial_config "dist_dir" Scenario.w0
                         H1 H2 H3))).
Defined.

(** C10: when the file parses to a document that is not a mapping (an
    empty file gives [None]), loading still succeeds, every call of
    [Config.get] raises [AttributeError] whatever the key, and so does
    the construction of the application; on a mapping [Config.get]
    never raises. *)
Theorem C10_non_mapping_document_makes_get_raise
    (env : Env) (config_path data : string) (doc : pyobj) (key : string) (w : World) :
  Fs.node_at (fs w) (resolve env config_path) = Some (File data) ->
  safe_load env data = Ok doc ->
  (forall d, doc <> PDict d) ->
  Config.__init__ env config_path w = (Ok {| Config.config := doc |}, w)
  /\ Config.get {| Config.config := doc |} key w = (Raise AttributeError, w)
  /\ App.__init__ env config_path w = (Raise AttributeError, w)
  /\ (forall d' k, exists v,
        Config.get {| Config.config := PDict d' |} k w = (Ok v, w)).
Proof.
  intros Hfile Hload Hdoc.
  pose proof (ConfigFacts.init_accepts env _ _ _ _ Hfile Hload) as Hinit.
  split; [exact Hinit|]. split; [now apply ConfigFacts.get_not_dict|]. split.
  - unfold App.__init__, bind. rewrite Hinit.
    now rewrite ConfigFacts.get_not_dict.
  - intros d' k. eexists. apply ConfigFacts.get_dict.
Qed.

Lemma C10_non_mapping_document_makes_get_raise_witness :
  Fs.node_at (fs Scenario.w0) (resolve Scenario.env "empty.yaml")
    = Some (File EmptyString)
  /\ safe_load Scenario.env EmptyString = Ok PNone
  /\ (forall d, PNone <> PDict d)
  /\ Config.get {| Config.config := PNone |} "source_dir" Scenario.w0
     = (Raise AttributeError, Scenario.w0).
Proof.
  assert (H1 : Fs.node_at (fs Scenario.w0) (resolve Scenario.env "empty.yaml")
               = Some (File EmptyString)) by reflexivity.
  assert (H2 : safe_load Scenario.env EmptyString = Ok PNone) by reflexivity.
  assert (H3 : forall d, PNone <> PDict d) by discriminate.
  refine (conj H1 (conj H2 (conj H3 _))).
  exact (proj1 (proj2 (C10_non_mapping_document_makes_get_raise Scenario.env
                         "empty.yaml" EmptyString PNone "source_dir" Scenario.w0
                         H1 H2 H3))).
Defined.

(** C9: the extension test is case-sensitive: a name that ends in an
    upper-case or mixed-case spelling of [.pptx] fails it, so the loop
    passes the file by, with the list and the world unchanged (no
    command is run, nothing is appended). *)
Theorem C9_extension_match_is_case_sensitive
    (env : Env) (self : PDFConverter.t) (root target_dir stem suffix : string)
    (files acc : list string) (w : World) :
  Str.lower suffix = ".pptx" ->
  suffix <> ".pptx" ->
  Str.endswith (stem +:+ suffix) ".pptx" = false
  /\ PDFConverter.convert_files env self root target_dir
       ((stem +:+ suffix) :: files) acc w
     = PDFConverter.convert_files env self root target_dir files acc w.
Proof.
  intros Hlower Hne.
  assert (Hlen : String.length suffix = String.length ".pptx")
    by now rewrite <- StrFacts.length_lower, Hlower.
  assert (Hends : Str.endswith (stem +:+ suffix) ".pptx" = false).
  { rewrite (StrFacts.endswith_same_length stem suffix ".pptx" Hlen).
    now apply String.eqb_neq. }
  split; [exact Hends|].
  cbn [PDFConverter.convert_files]. now rewrite Hends.
Qed.

Lemma C9_extension_match_is_case_sensitive_witness :
  Str.lower ".PPTX" = ".pptx"
  /\ ".PPTX" <> ".pptx"
  /\ Str.endswith "Deck.PPTX" ".pptx" = false.
Proof.
  assert (H1 : Str.lower ".PPTX" = ".pptx") by reflexivity.
  assert (H2 : ".PPTX" <> ".pptx") by discriminate.
  refine (conj H1 (conj H2 _)).
  exact (proj1 (C9_extension_match_is_case_sensitive Scenario.env
                  Scenario.converter "src/a" "out/a" "Deck" ".PPTX" [] []
                  Scenario.w0 H1 H2)).
Defined.

(** C2: when the command exits with a non-zero status on a [.pptx]
    file, [_convert_file] prints the line
    [Ошибка при конвертации файла <file>.] and returns [None] without
    raising; the loop then goes on over the remaining files with the
    list unchanged, and ends normally. *)
Theorem C2_nonzero_exit_is_reported_and_skipped
    (env : Env) (self : PDFConverter.t) (root target_dir file : string)
    (files acc : list string) (w : World) :
  let cmd := PDFConverter.convert_command_of self root file target_dir in
  let code := fst (shell env cmd (fs w)) in
  let w' := after w (snd (shell env cmd (fs w)))
              [ERun cmd code;
               EPrint ("Ошибка при конвертации файла " +:+ file +:+ ".")] in
  Str.endswith file ".pptx" = true ->
  code <> 0 ->
  PDFConverter._convert_file env self root file target_dir w = (Ok None, w')
  /\ PDFConverter.convert_files env self root target_dir (file :: files) acc w
     = PDFConverter.convert_files env self root target_dir files acc w'
  /\ exists l w'',
       PDFConverter.convert_files env self root target_dir (file :: files) acc w
       = (Ok l, w'').
Proof.
  intros cmd code w' Hext Hcode.
  assert (Hcall : PDFConverter._convert_file env self root file target_dir w
                  = (Ok None, w')).
  { rewrite ConverterFacts._convert_file_cases. cbv zeta. fold cmd code.
    apply Z.eqb_neq in Hcode. now rewrite Hcode. }
  split; [exact Hcall|]. split.
  - cbn [PDFConverter.convert_files]. rewrite Hext. unfold bind.
    now rewrite Hcall.
  - rewrite ConverterFacts.convert_files_fold. cbv zeta. eauto.
Qed.

Lemma C2_nonzero_exit_is_reported_and_skipped_witness :
  Str.endswith "two.pptx" ".pptx" = true
  /\ fst (shell Scenario.env Scenario.cmd_two (fs Scenario.w0)) <> 0
  /\ PDFConverter._convert_file Scenario.env Scenario.converter "src/a/b"
       "two.pptx" "out/a/b" Scenario.w0
     = (Ok None,
        after Scenario.w0 (fs Scenario.w0)
          [ERun Scenario.cmd_two 1;
           EPrint "Ошибка при конвертации файла two.pptx."]).
Proof.
  assert (H1 : Str.endswith "two.pptx" ".pptx" = true) by reflexivity.
  assert (H2 : fst (shell Scenario.env Scenario.cmd_two (fs Scenario.w0)) <> 0)
    by discriminate.
  refine (conj H1 (conj H2 _)).
  exact (proj1 (C2_nonzero_exit_is_reported_and_skipped Scenario.env
                  Scenario.converter "src/a/b" "out/a/b" "two.pptx"
                  ["three.pptx"] [] Scenario.w0 H1 H2)).
Defined.

(** C3, as stated, fails on the name [.pptx]: it ends in [.pptx], but
    [os.path.splitext] finds no extension in it, so the destination is
    [out/.pptx.pdf] and not [out/.pdf]. *)
Lemma C3_counterexample_dot_pptx :
  Str.endswith ".pptx" ".pptx" = true
  /\ PDFConverter.target_file_of ".pptx" "out" = "out/.pptx.pdf"
  /\ spec_target_file ".pptx" "out" = "out/.pdf"
  /\ PDFConverter.target_file_of ".pptx" "out" <> spec_target_file ".pptx" "out".
Proof. repeat split; discriminate. Qed.

(** C3 (amended): the loop attempts a conversion exactly for the names
    that end in [.pptx]. Such a name [stem.pptx] is converted by one
    call of [_convert_file], whose destination is the target directory
    joined with the root [os.path.splitext] leaves plus [.pdf]: [stem.pdf]
    when some character other than a dot precedes the suffix in the
    name, and the whole name plus [.pdf] otherwise. A name that does not
    end in [.pptx] is passed by: no command is run and neither the list
    nor the world changes. *)
Theorem C3_pptx_names_go_to_splitext_root_pdf
    (env : Env) (self : PDFConverter.t) (root target_dir file : string)
    (files acc : list string) (w : World) :
  (Str.endswith file ".pptx" = true <-> exists stem, file = stem +:+ ".pptx")
  /\ (Str.endswith file ".pptx" = false ->
      PDFConverter.convert_files env self root target_dir (file :: files) acc w
      = PDFConverter.convert_files env self root target_dir files acc w)
  /\ (forall stem, file = stem +:+ ".pptx" ->
      let dest :=
        PosixPath.join target_dir
          ((if Str.all_dots (PosixPath.basename stem) then file else stem)
             +:+ ".pdf") in
      let cmd := PDFConverter.convert_command_of self root file target_dir in
      PDFConverter.target_file_of file target_dir = dest
      /\ exists pdf_path evs,
           PDFConverter._convert_file env self root file target_dir w
           = (Ok pdf_path,
              after w (snd (shell env cmd (fs w)))
                (ERun cmd (fst (shell env cmd (fs w))) :: evs))
           /\ (pdf_path = None \/ pdf_path = Some dest)
           /\ PDFConverter.convert_files env self root target_dir (file :: files) acc w
              = PDFConverter.convert_files env self root target_dir files
                  (append_if_truthy acc pdf_path)
                  (after w (snd (shell env cmd (fs w)))
                     (ERun cmd (fst (shell env cmd (fs w))) :: evs))).
Proof.
  split; [|split].
  - split.
    + apply StrFacts.endswith_inv.
    + intros [stem ->]. apply StrFacts.endswith_app.
  - intros Hext. cbn [PDFConverter.convert_files]. now rewrite Hext.
  - intros stem Hfile dest cmd.
    assert (Hdest : PDFConverter.target_file_of file target_dir = dest).
    { unfold PDFConverter.target_file_of, dest. rewrite Hfile at 1.
      rewrite StrFacts.splitext_pptx. rewrite <- Hfile.
      now destruct (Str.all_dots _). }
    split; [exact Hdest|].
    assert (Hext : Str.endswith file ".pptx" = true)
      by (rewrite Hfile; apply StrFacts.endswith_app).
    pose proof (ConverterFacts._convert_file_cases env self root file target_dir w)
      as Hcases. cbv zeta in Hcases. fold cmd in Hcases. rewrite Hdest in Hcases.
    assert (Hcall : exists pdf_path evs,
      PDFConverter._convert_file env self root file target_dir w
      = (Ok pdf_path,
         after w (snd (shell env cmd (fs w)))
           (ERun cmd (fst (shell env cmd (fs w))) :: evs))
      /\ (pdf_path = None \/ pdf_path = Some dest)).
    { destruct (_ =? 0); [destruct (Fs.is_file _ _)|]; eauto 6. }
    destruct Hcall as (pdf_path & evs & Hcall & Hpath).
    exists pdf_path, evs. split; [exact Hcall|]. split; [exact Hpath|].
    cbn [PDFConverter.convert_files]. rewrite Hext. unfold bind.
    now rewrite Hcall.
Qed.

Lemma C3_pptx_names_go_to_splitext_root_pdf_witness :
  Str.endswith "notes.txt" ".pptx" = false
  /\ PDFConverter.convert_files Scenario.env Scenario.converter "src/a" "out/a"
       ["notes.txt"] [] Scenario.w0
     = (Ok [], Scenario.w0)
  /\ PDFConverter.target_file_of "one.pptx" "out/a" = "out/a/one.pdf".
Proof.
  assert (H1 : Str.endswith "notes.txt" ".pptx" = false) by reflexivity.
  refine (conj H1 (conj _ _)).
  - exact (proj1 (proj2 (C3_pptx_names_go_to_splitext_root_pdf Scenario.env
                           Scenario.converter "src/a" "out/a" "notes.txt" [] []
                           Scenario.w0)) H1).
  - exact (proj1 (proj2 (proj2 (C3_pptx_names_go_to_splitext_root_pdf Scenario.env
                                  Scenario.converter "src/a" "out/a" "one.pptx" [] []
                                  Scenario.w0)) "one" eq_refl)).
Defined.

(** C1: every path of the list [convert] returns was produced by a call
    of [_convert_file] that the run reached, on a [.pptx] file of a
    walked directory; in the world of that call the command exited with
    status zero, and the destination was a regular file in the file
    system the command left. A call whose command exits with status zero
    without leaving the destination file returns [None] and adds
    nothing to the list. *)
Theorem C1_listed_only_if_exit_zero_and_file_present
    (env : Env) (self : PDFConverter.t) (w w' : World) (l : list string) (p : string) :
  PDFConverter.convert env self w = (Ok l, w') ->
  In p l ->
  (exists src root file target_dir w0,
     PDFConverter.source_dir self = PStr src
     /\ Loop.reaches_file env self (os_walk env src) [] w
          root file target_dir w0
     /\ p = PDFConverter.target_file_of file target_dir
     /\ let cmd := PDFConverter.convert_command_of self root file target_dir in
        fst (shell env cmd (fs w0)) = 0
        /\ Fs.is_file (snd (shell env cmd (fs w0))) (resolve env p) = true)
  /\ (forall root file target_dir acc w0,
        let cmd := PDFConverter.convert_command_of self root file target_dir in
        fst (shell env cmd (fs w0)) = 0 ->
        Fs.is_file (snd (shell env cmd (fs w0)))
          (resolve env (PDFConverter.target_file_of file target_dir)) = false ->
        fst (PDFConverter._convert_file env self root file target_dir w0) = Ok None
        /\ fst (Loop.file_step env self root target_dir file (acc, w0)) = acc).
Proof.
  intros Hrun Hin. split.
  - unfold PDFConverter.convert, bind, os_walk_entries in Hrun.
    destruct (PDFConverter.source_dir self) as [| | | |src| |] eqn:Esrc;
      try discriminate.
    cbn [ret] in Hrun.
    destruct (OriginFacts.walk_origin env self _ _ _ _ _ p Hrun Hin)
      as [[] | (root & file & target_dir & w0 & w0' & Hreach & Hcall)].
    apply OriginFacts._convert_file_some in Hcall.
    cbv zeta in Hcall. destruct Hcall as (Hp & Hcode & Hfile & _).
    exists src, root, file, target_dir, w0. rewrite <- Hp. auto.
  - intros root file target_dir acc w0 cmd Hcode Hfile.
    assert (Hcall : fst (PDFConverter._convert_file env self root file target_dir w0)
                    = Ok None).
    { rewrite ConverterFacts._convert_file_cases. cbv zeta. fold cmd.
      now rewrite Hcode, Hfile. }
    split; [exact Hcall|].
    unfold Loop.file_step. cbn [fst snd].
    destruct (Str.endswith file ".pptx"); [|reflexivity].
    destruct (PDFConverter._convert_file env self root file target_dir w0)
      as [[r|e] w1]; cbn [fst] in *; [|reflexivity].
    now injection Hcall as ->.
Qed.

Lemma C1_listed_only_if_exit_zero_and_file_present_witness :
  PDFConverter.convert Scenario.env Scenario.converter Scenario.w0
    = (Ok Scenario.converted,
       snd (PDFConverter.convert Scenario.env Scenario.converter Scenario.w0))
  /\ In "out/a/one.pdf" Scenario.converted
  /\ fst (PDFConverter._convert_file Scenario.env Scenario.converter "src/a/b"
            "three.pptx" "out/a/b" Scenario.w0) = Ok None.
Proof.
  assert (H1 : PDFConverter.convert Scenario.env Scenario.converter Scenario.w0
               = (Ok Scenario.converted,
                  snd (PDFConverter.convert Scenario.env Scenario.converter
                         Scenario.w0))) by (vm_compute; reflexivity).
  assert (H2 : In "out/a/one.pdf" Scenario.converted) by (left; reflexivity).
  refine (conj H1 (conj H2 _)).
  exact (proj1 (proj2 (C1_listed_only_if_exit_zero_and_file_present Scenario.env
                         Scenario.converter Scenario.w0 _ _ _ H1 H2)
                 "src/a/b" "three.pptx" "out/a/b" [] Scenario.w0
                 eq_refl eq_refl)).
Defined.





(** C6: when [protect] raises on an entry of the converted-file list
    (the PDF library fails to open or to save the file), nothing catches
    the exception: the loop and [App.run] end with it, in the world the
    failed call left, so no later entry is opened or saved. A conversion
    failure is contained instead: [_convert_file] never raises. *)
Theorem C6_protect_failure_aborts_remaining
    (env : Env) (self : App.t) (dist : string) (pre post : list string)
    (p : string) (e : exn) (w wa wc w1 w2 : World) :
  Config.get (App.config self) "dist_dir" w = (Ok (PStr dist), w) ->
  Path_mkdir env dist w = (Ok tt, wa) ->
  PDFConverter.convert env (App.converter self) wa = (Ok (pre ++ p :: post)%list, wc) ->
  for_each (PDFProtector.protect env (App.protector self)) pre wc = (Ok tt, w1) ->
  PDFProtector.protect env (App.protector self) p w1 = (Raise e, w2) ->
  for_each (PDFProtector.protect env (App.protector self)) (pre ++ p :: post) wc
    = (Raise e, w2)
  /\ App.run env self w = (Raise e, w2)
  /\ (exists s,
        w2 = after w1 s [EOpen p true]
        \/ w2 = after w1 s
                  [EOpen p true;
                   ESave p (PDFProtector.encryption_of (App.protector self))])
  /\ log w1
     = (log wc ++ flat_map (Log.protect_events (App.protector self)) pre)%list
  /\ (forall conv root file target_dir w0,
        exists r w0',
          PDFConverter._convert_file env conv root file target_dir w0 = (Ok r, w0')).
Proof.
  intros Hget Hmk Hconv Hpre Hfail.
  assert (Hloop :
    for_each (PDFProtector.protect env (App.protector self)) (pre ++ p :: post) wc
    = (Raise e, w2)).
  { rewrite ProtectorFacts.for_each_app. unfold bind. rewrite Hpre.
    cbn [for_each]. unfold bind. now rewrite Hfail. }
  split; [exact Hloop|]. split; [|split; [|split]].
  - unfold App.run. unfold bind at 1. rewrite Hget.
    unfold Path, ret, bind. now rewrite Hmk, Hconv.
  - rewrite ProtectorFacts.protect_cases in Hfail.
    destruct (pikepdf_open env p (fs w1)) as [pdf|e'].
    + destruct (pikepdf_save _ _ _ _ _) as [[[]|e'] s]; [discriminate|].
      injection Hfail as _ <-. eauto.
    + injection Hfail as _ <-. eauto.
  - now apply (ProtectorFacts.protect_all_log env).
  - intros conv root file target_dir w0.
    apply ConverterFacts._convert_file_total.
Qed.

Lemma C6_protect_failure_aborts_remaining_witness :
  let wa := snd (Path_mkdir Scenario.env "out" Scenario.w0) in
  let wc := snd (PDFConverter.convert Scenario.env Scenario.converter wa) in
  let w1 := snd (PDFProtector.protect Scenario.env Scenario.protector
                   "out/a/one.pdf" wc) in
  let w2 := snd (PDFProtector.protect Scenario.env Scenario.protector
                   "out/a/b/four.pdf" w1) in
  Config.get (App.config Scenario.app) "dist_dir" Scenario.w0
    = (Ok (PStr "out"), Scenario.w0)
  /\ Path_mkdir Scenario.env "out" Scenario.w0 = (Ok tt, wa)
  /\ PDFConverter.convert Scenario.env Scenario.converter wa
     = (Ok (["out/a/one.pdf"] ++ "out/a/b/four.pdf" :: ["out/a/b/five.pdf"])%list, wc)
  /\ for_each (PDFProtector.protect Scenario.env Scenario.protector)
       ["out/a/one.pdf"] wc = (Ok tt, w1)
  /\ PDFProtector.protect Scenario.env Scenario.protector "out/a/b/four.pdf" w1
     = (Raise (PdfError "not a PDF"), w2)
  /\ App.run Scenario.env Scenario.app Scenario.w0
     = (Raise (PdfError "not a PDF"), w2).
Proof.
  intros wa wc w1 w2.
  assert (H1 : Config.get (App.config Scenario.app) "dist_dir" Scenario.w0
               = (Ok (PStr "out"), Scenario.w0)) by reflexivity.
  assert (H2 : Path_mkdir Scenario.env "out" Scenario.w0 = (Ok tt, wa))
    by (vm_compute; reflexivity).
  assert (H3 : PDFConverter.convert Scenario.env Scenario.converter wa
               = (Ok (["out/a/one.pdf"] ++ "out/a/b/four.pdf"
                        :: ["out/a/b/five.pdf"])%list, wc))
    by (vm_compute; reflexivity).
  assert (H4 : for_each (PDFProtector.protect Scenario.env Scenario.protector)
                 ["out/a/one.pdf"] wc = (Ok tt, w1))
    by (vm_compute; reflexivity).
  assert (H5 : PDFProtector.protect Scenario.env Scenario.protector
                 "out/a/b/four.pdf" w1 = (Raise (PdfError "not a PDF"), w2))
    by (vm_compute; reflexivity).
  refine (conj H1 (conj H2 (conj H3 (conj H4 (conj H5 _))))).
  exact (proj1 (proj2 (C6_protect_failure_aborts_remaining Scenario.env
                         Scenario.app "out" ["out/a/one.pdf"] ["out/a/b/five.pdf"]
                         "out/a/b/four.pdf" (PdfError "not a PDF")
                         Scenario.w0 wa wc w1 w2 H1 H2 H3 H4 H5))).
Defined.

(** C7: [protect] opens the file for overwriting and saves it under the
    same path with one encryption record: the owner password of the
    protector, no user password, and a permission record that passes
    [False] for extract, modify_annotation, modify_assembly, modify_form,
    modify_other, print_highres and print_lowres. Whatever the outcome
    of a loop of [protect] calls, every save it logs is on a listed path
    with that record; and the protector [App] builds has the value
    configured under [owner_password] as its owner password. *)
Theorem C7_protect_saves_in_place_with_fixed_permissions
    (env : Env) (self : PDFProtector.t) (pdf_path : string) (w : World) :
  let enc :=
    {| owner := Some (PDFProtector.owner_password self);
       user := None;
       allow := Some {| accessibility := None;
                        extract := Some false;
                        modify_annotation := Some false;
                        modify_assembly := Some false;
                        modify_form := Some false;
                        modify_other := Some false;
                        print_highres := Some false;
                        print_lowres := Some false |} |} in
  PDFProtector.protect env self pdf_path w
  = match pikepdf_open env pdf_path (fs w) with
    | Raise e => (Raise e, after w (fs w) [EOpen pdf_path true])
    | Ok pdf =>
        match pikepdf_save env pdf pdf_path enc (fs w) with
        | (Ok _, s) =>
            (Ok tt,
             after w s [EOpen pdf_path true; ESave pdf_path enc;
                        EPrint (PDFProtector.msg_protected pdf_path)])
        | (Raise e, s) =>
            (Raise e, after w s [EOpen pdf_path true; ESave pdf_path enc])
        end
    end
  /\ (forall l w0, exists evs,
        log (snd (for_each (PDFProtector.protect env self) l w0))
        = (log w0 ++ evs)%list
        /\ forall q enc', In (ESave q enc') evs -> In q l /\ enc' = enc)
  /\ (forall config_path w0 app w0',
        App.__init__ env config_path w0 = (Ok app, w0') ->
        Config.get (App.config app) "owner_password" w0'
        = (Ok (PDFProtector.owner_password (App.protector app)), w0')).
Proof.
  intros enc. split; [apply ProtectorFacts.protect_cases|]. split.
  - intros l w0.
    destruct (ProtectorFacts.protect_all_extends env self l w0) as (evs & Hlog & Hevs).
    exists evs. split; [exact Hlog|].
    intros q enc' Hin. rewrite List.Forall_forall in Hevs.
    exact (Hevs _ Hin).
  - intros config_path w0 app w0'. unfold App.__init__, bind.
    destruct (Config.__init__ env config_path w0) as [[cfg|e] w1]; [|discriminate].
    unfold Config.get. destruct (Config.config cfg) eqn:Ecfg; try discriminate.
    unfold ret. intros [= <- <-]. cbn. now rewrite Ecfg.
Qed.

Lemma C7_protect_saves_in_place_with_fixed_permissions_witness :
  App.__init__ Scenario.env "config.yaml" Scenario.w0 = (Ok Scenario.app, Scenario.w0)
  /\ Config.get (App.config Scenario.app) "owner_password" Scenario.w0
     = (Ok (PStr "secret"), Scenario.w0).
Proof.
  assert (H1 : App.__init__ Scenario.env "config.yaml" Scenario.w0
               = (Ok Scenario.app, Scenario.w0)) by (vm_compute; reflexivity).
  refine (conj H1 _).
  exact (proj2 (proj2 (C7_protect_saves_in_place_with_fixed_permissions
                         Scenario.env Scenario.protector "out/a/one.pdf"
                         Scenario.w0))
           "config.yaml" Scenario.w0 Scenario.app Scenario.w0 H1).
Defined.

(** * Further properties *)

(** ** The run as a whole *)

Module RunFacts.

Section WithEnv.

Variable env : Env.

(** With a string under [dist_dir], [run] is its three steps. *)
Lemma run_steps (self : App.t) (dist : string) (w : World) :
  Config.get (App.config self) "dist_dir" w = (Ok (PStr dist), w) ->
  App.run env self w
  = (Path_mkdir env dist ;;;
     converted_files <- PDFConverter.convert env (App.converter self) ;;
     for_each (PDFProtector.protect env (App.protector self)) converted_files) w.
Proof.
  intros Hget. unfold App.run. unfold bind at 1. now rewrite Hget.
Qed.

(** Existing nodes survive [mkdirs_from], whatever its outcome. *)
Lemma mkdirs_from_keeps (rest pre : list string) (s : FS) (q : list string) (n : node) :
  s !! q = Some n -> snd (Fs.mkdirs_from pre rest s) !! q = Some n.
Proof.
  revert pre s. induction rest as [|c rest IH]; intros pre s Hq; [exact Hq|].
  cbn [Fs.mkdirs_from].
  destruct (s !! (pre ++ [c])%list) as [[|data]|] eqn:E0.
  - now apply IH.
  - exact Hq.
  - apply IH. rewrite lookup_insert_ne; [exact Hq|]. congruence.
Qed.

End WithEnv.

End RunFacts.

(** X1: a configuration file that is missing, is a directory, or does
    not parse is fatal: [main] ends with the exception of the load, and
    the world is as it was: nothing is created, run or printed. *)
Theorem X1_config_failure_stops_main_before_any_effect
    (env : Env) (w : World) (e : exn) :
  (Fs.node_at (fs w) (resolve env "config.yaml") = None /\ e = FileNotFoundError)
  \/ (Fs.node_at (fs w) (resolve env "config.yaml") = Some Dir
      /\ e = IsADirectoryError)
  \/ (exists data,
        Fs.node_at (fs w) (resolve env "config.yaml") = Some (File data)
        /\ safe_load env data = Raise e) ->
  App.main env w = (Raise e, w).
Proof.
  unfold App.main, App.__init__, Config.__init__, bind, open_read, lift.
  intros [[-> ->] | [[-> ->] | (data & -> & ->)]]; reflexivity.
Qed.

Lemma X1_config_failure_stops_main_before_any_effect_witness :
  Fs.node_at (fs Cases.w_bare) (resolve Scenario.env "config.yaml") = None
  /\ App.main Scenario.env Cases.w_bare = (Raise FileNotFoundError, Cases.w_bare).
Proof.
  assert (H1 : Fs.node_at (fs Cases.w_bare) (resolve Scenario.env "config.yaml") = None)
    by reflexivity.
  refine (conj H1 _).
  exact (X1_config_failure_stops_main_before_any_effect Scenario.env Cases.w_bare
           FileNotFoundError (or_introl (conj H1 eq_refl))).
Defined.

(** X2: a key whose value is null reads exactly like a key that is
    absent: [Config.get] gives [None] for a key precisely when the
    mapping lacks it or maps it to [None], and storing [None] under a
    key leaves every lookup as if the key had been deleted. *)
Theorem X2_null_value_reads_as_absent_key
    (d : gmap string pyobj) (key : string) (w : World) :
  (Config.get {| Config.config := PDict d |} key w = (Ok PNone, w)
   <-> d !! key = None \/ d !! key = Some PNone)
  /\ forall k,
       Config.get {| Config.config := PDict (<[key := PNone]> d) |} k w
       = Config.get {| Config.config := PDict (delete key d) |} k w.
Proof.
  split.
  - rewrite ConfigFacts.get_dict. destruct (d !! key) as [v|]; cbn.
    + split.
      * intros [= ->]. now right.
      * intros [H | [= ->]]; [discriminate | reflexivity].
    + split; auto.
  - intros k. rewrite !ConfigFacts.get_dict.
    destruct (decide (key = k)) as [->|Hne].
    + now rewrite lookup_insert_eq, lookup_delete_eq.
    + now rewrite lookup_insert_ne, lookup_delete_ne.
Qed.

(** X3: on every mapping document the construction of [App] succeeds
    and leaves the world as it was, whatever keys the mapping has and
    whatever their values are; the converter and the protector get the
    values under [source_dir], [dist_dir] and [owner_password] ([None]
    for a key that is absent), and the command prefix is always
    [/opt/homebrew/bin/soffice]. *)
Theorem X3_app_is_built_from_three_keys
    (env : Env) (config_path data : string) (d : gmap string pyobj) (w : World) :
  Fs.node_at (fs w) (resolve env config_path) = Some (File data) ->
  safe_load env data = Ok (PDict d) ->
  exists app,
    App.__init__ env config_path w = (Ok app, w)
    /\ App.config app = {| Config.config := PDict d |}
    /\ PDFConverter.source_dir (App.converter app) = default PNone (d !! "source_dir")
    /\ PDFConverter.dist_dir (App.converter app) = default PNone (d !! "dist_dir")
    /\ PDFConverter.convert_command_prefix (App.converter app)
       = "/opt/homebrew/bin/soffice"
    /\ PDFProtector.owner_password (App.protector app)
       = default PNone (d !! "owner_password").
Proof.
  intros Hfile Hload. eexists. split.
  - unfold App.__init__, bind.
    rewrite (ConfigFacts.init_accepts env _ _ _ _ Hfile Hload).
    rewrite !ConfigFacts.get_dict. reflexivity.
  - repeat split.
Qed.

Lemma X3_app_is_built_from_three_keys_witness :
  Fs.node_at (fs Scenario.w0) (resolve Scenario.env "partial.yaml")
    = Some (File "partial")
  /\ safe_load Scenario.env "partial" = Ok (PDict Scenario.partial_config)
  /\ exists app,
       App.__init__ Scenario.env "partial.yaml" Scenario.w0 = (Ok app, Scenario.w0)
       /\ PDFConverter.dist_dir (App.converter app) = PNone.
Proof.
  assert (H1 : Fs.node_at (fs Scenario.w0) (resolve Scenario.env "partial.yaml")
               = Some (File "partial")) by reflexivity.
  assert (H2 : safe_load Scenario.env "partial" = Ok (PDict Scenario.partial_config))
    by reflexivity.
  refine (conj H1 (conj H2 _)).
  destruct (X3_app_is_built_from_three_keys Scenario.env "partial.yaml" "partial"
              Scenario.partial_config Scenario.w0 H1 H2)
    as (app & Hinit & _ & _ & Hdist & _).
  exists app. split; [exact Hinit|]. rewrite Hdist. reflexivity.
Defined.

Module RunFacts2.

Lemma mkdirs_from_raises (rest pre : list string) (s s' : FS) (e : exn) :
  Fs.mkdirs_from pre rest s = (Raise e, s') ->
  e = FileExistsError \/ e = NotADirectoryError.
Proof.
  revert pre s. induction rest as [|c rest IH]; intros pre s; [discriminate|].
  cbn [Fs.mkdirs_from].
  destruct (s !! (pre ++ [c])%list) as [[|data]|]; try apply IH.
  intros [= <- _]. destruct rest; auto.
Qed.

Lemma clear_false_blocked (s : FS) (pre rest : list string) :
  Fs.clear s (Fs.chain_from pre rest) = false ->
  ~ Fs.unblocked s (Fs.chain_from pre rest).
Proof.
  intros Hclear Hfree.
  assert (Hall : forall qs, (forall q, In q qs -> In q (Fs.chain_from pre rest)) ->
                   Fs.clear s qs = true).
  { induction qs as [|q qs IH]; intros Hsub; [reflexivity|].
    cbn [Fs.clear forallb]. apply andb_true_iff. split.
    - pose proof (Hsub q (or_introl eq_refl)) as Hq.
      pose proof (FsFacts.chain_from_longer _ _ _ Hq) as Hlen.
      unfold Fs.is_file, Fs.node_at.
      destruct q as [|c q]; [simpl in Hlen; lia|].
      destruct (s !! (c :: q)) as [[|data]|] eqn:E; try reflexivity.
      now destruct (Hfree (c :: q) data Hq).
    - apply IH. intros q' Hq'. apply Hsub. now right. }
  rewrite Hall in Hclear; [discriminate | auto].
Qed.

End RunFacts2.

(** X4: whatever the outcome of [App.run], its log is the [mkdir] call,
    then events of the converter only, then events of the protector
    only: no command is run and no directory is made after the first
    file is opened for protection, and the protector opens and saves
    nothing but paths of the list [convert] returned. *)
Theorem X4_run_converts_everything_before_protecting
    (env : Env) (self : App.t) (dist : string) (w : World) :
  Config.get (App.config self) "dist_dir" w = (Ok (PStr dist), w) ->
  let wa := snd (Path_mkdir env dist w) in
  let converted_files :=
    match fst (PDFConverter.convert env (App.converter self) wa) with
    | Ok l => l
    | Raise _ => []
    end in
  exists conv_evs prot_evs,
    log (snd (App.run env self w))
    = (log w ++ EMkdir dist :: conv_evs ++ prot_evs)%list
    /\ Forall Log.converter_event conv_evs
    /\ Forall (Log.protector_event (App.protector self) converted_files) prot_evs.
Proof.
  intros Hget wa converted_files.
  rewrite (RunFacts.run_steps env self dist w Hget). unfold bind.
  subst wa converted_files. unfold Path_mkdir.
  destruct (Fs.mkdirs_from [] (resolve env dist) (fs w)) as [[[]|e] s1]; cbn [snd].
  2:{ exists [], []. split; [reflexivity|]. split; constructor. }
  pose proof (LogFacts.convert_extends env (App.converter self)
                (after w s1 [EMkdir dist])) as (conv_evs & Hconv & Hc).
  destruct (PDFConverter.convert env (App.converter self) (after w s1 [EMkdir dist]))
    as [[l|e] w2]; cbn [fst snd] in *.
  - pose proof (ProtectorFacts.protect_all_extends env (App.protector self) l w2)
      as (prot_evs & Hprot & Hp).
    exists conv_evs, prot_evs. split; [|split; assumption].
    rewrite Hprot, Hconv. cbn [after log]. now rewrite <- !app_assoc.
  - exists conv_evs, []. split; [|split; [assumption | constructor]].
    rewrite Hconv. cbn [after log]. now rewrite <- !app_assoc, app_nil_r.
Qed.

Lemma X4_run_converts_everything_before_protecting_witness :
  Config.get (App.config Scenario.app) "dist_dir" Scenario.w0
    = (Ok (PStr "out"), Scenario.w0)
  /\ exists conv_evs prot_evs,
       log (snd (App.run Scenario.env Scenario.app Scenario.w0))
       = (log Scenario.w0 ++ EMkdir "out" :: conv_evs ++ prot_evs)%list
       /\ Forall Log.converter_event conv_evs.
Proof.
  assert (H1 : Config.get (App.config Scenario.app) "dist_dir" Scenario.w0
               = (Ok (PStr "out"), Scenario.w0)) by reflexivity.
  refine (conj H1 _).
  destruct (X4_run_converts_everything_before_protecting Scenario.env Scenario.app
              "out" Scenario.w0 H1) as (conv_evs & prot_evs & Hlog & Hc & _).
  exists conv_evs, prot_evs. split; [exact Hlog | exact Hc].
Defined.

(** X5: when a regular file stands at the destination root or at one of
    its ancestors, [App.run] ends with the [FileExistsError] or
    [NotADirectoryError] of the [mkdir] call; nothing is walked,
    converted or protected (the [mkdir] call is the only event), and
    every node of the file system is still there. *)
Theorem X5_blocked_destination_root_stops_run
    (env : Env) (self : App.t) (dist : string) (w : World) :
  Config.get (App.config self) "dist_dir" w = (Ok (PStr dist), w) ->
  Fs.clear (fs w) (Fs.chain (resolve env dist)) = false ->
  exists e s,
    App.run env self w = (Raise e, after w s [EMkdir dist])
    /\ (e = FileExistsError \/ e = NotADirectoryError)
    /\ forall q n, fs w !! q = Some n -> s !! q = Some n.
Proof.
  intros Hget Hclear.
  rewrite (RunFacts.run_steps env self dist w Hget). unfold bind, Path_mkdir.
  apply RunFacts2.clear_false_blocked in Hclear.
  pose proof (FsFacts.mkdirs_from_blocked _ _ _ Hclear) as (e & s & Hmk).
  pose proof (fun q n => RunFacts.mkdirs_from_keeps (resolve env dist) [] (fs w) q n)
    as Hkeep.
  rewrite Hmk in *. cbn [snd] in Hkeep.
  exists e, s. split; [reflexivity|]. split; [|exact Hkeep].
  exact (RunFacts2.mkdirs_from_raises _ _ _ _ _ Hmk).
Qed.

Lemma X5_blocked_destination_root_stops_run_witness :
  Config.get (App.config Scenario.app) "dist_dir" Cases.w_blocked
    = (Ok (PStr "out"), Cases.w_blocked)
  /\ Fs.clear (fs Cases.w_blocked) (Fs.chain (resolve Scenario.env "out")) = false
  /\ exists e s,
       App.run Scenario.env Scenario.app Cases.w_blocked
       = (Raise e, after Cases.w_blocked s [EMkdir "out"]).
Proof.
  assert (H1 : Config.get (App.config Scenario.app) "dist_dir" Cases.w_blocked
               = (Ok (PStr "out"), Cases.w_blocked)) by reflexivity.
  assert (H2 : Fs.clear (fs Cases.w_blocked) (Fs.chain (resolve Scenario.env "out"))
               = false) by reflexivity.
  refine (conj H1 (conj H2 _)).
  destruct (X5_blocked_destination_root_stops_run Scenario.env Scenario.app "out"
              Cases.w_blocked H1 H2) as (e & s & Hrun & _).
  exists e, s. exact Hrun.
Defined.



(** X7: when [os.walk] yields nothing (the source directory does not
    exist or cannot be listed), [convert] returns the empty list and
    leaves the world as it is, so [App.run] does nothing but the [mkdir]
    call: when that call returns normally the run returns normally in
    the world the call left, where the call is the only event and the
    destination root is a directory; no directory is mirrored, no
    command is run and no file is protected. *)
Theorem X7_empty_walk_only_creates_destination_root
    (env : Env) (self : App.t) (src dist : string) (w wa : World) :
  Config.get (App.config self) "dist_dir" w = (Ok (PStr dist), w) ->
  PDFConverter.source_dir (App.converter self) = PStr src ->
  os_walk env src = [] ->
  Path_mkdir env dist w = (Ok tt, wa) ->
  PDFConverter.convert env (App.converter self) w = (Ok [], w)
  /\ App.run env self w = (Ok tt, wa)
  /\ log wa = (log w ++ [EMkdir dist])%list
  /\ Fs.is_dir (fs wa) (resolve env dist) = true.
Proof.
  intros Hget Hsrc Hwalk Hmkdir.
  assert (Hconv : forall w0, PDFConverter.convert env (App.converter self) w0
                              = (Ok [], w0)).
  { intros w0. unfold PDFConverter.convert, bind, os_walk_entries.
    now rewrite Hsrc, Hwalk. }
  split; [apply Hconv|].
  rewrite (RunFacts.run_steps env self dist w Hget). unfold bind.
  rewrite Hmkdir, Hconv. unfold Path_mkdir in Hmkdir.
  destruct (Fs.mkdirs_from [] (resolve env dist) (fs w)) as [[[]|e] s] eqn:Hmk;
    [|discriminate].
  injection Hmkdir as <-. cbn [fs log after].
  split; [reflexivity | split; [reflexivity|]].
  exact (proj1 (FsFacts.mkdirs_ok_dirs _ _ _ Hmk)).
Qed.

Lemma X7_empty_walk_only_creates_destination_root_witness :
  let wa := snd (Path_mkdir Cases.no_source "out" Cases.w_bare) in
  Config.get (App.config Scenario.app) "dist_dir" Cases.w_bare
    = (Ok (PStr "out"), Cases.w_bare)
  /\ PDFConverter.source_dir (App.converter Scenario.app) = PStr "src"
  /\ os_walk Cases.no_source "src" = []
  /\ Path_mkdir Cases.no_source "out" Cases.w_bare = (Ok tt, wa)
  /\ App.run Cases.no_source Scenario.app Cases.w_bare = (Ok tt, wa)
  /\ Fs.is_dir (fs wa) ["w"; "out"] = true.
Proof.
  intros wa.
  assert (H1 : Config.get (App.config Scenario.app) "dist_dir" Cases.w_bare
               = (Ok (PStr "out"), Cases.w_bare)) by reflexivity.
  assert (H2 : PDFConverter.source_dir (App.converter Scenario.app) = PStr "src")
    by reflexivity.
  assert (H3 : os_walk Cases.no_source "src" = []) by reflexivity.
  assert (H4 : Path_mkdir Cases.no_source "out" Cases.w_bare = (Ok tt, wa))
    by (vm_compute; reflexivity).
  refine (conj H1 (conj H2 (conj H3 (conj H4 _)))).
  destruct (X7_empty_walk_only_creates_destination_root Cases.no_source
              Scenario.app "src" "out" Cases.w_bare wa H1 H2 H3 H4)
    as (_ & Hrun & _ & Hdir).
  split; [exact Hrun | exact Hdir].
Defined.

(** ** What a conversion run does, in order *)

Module PlanFacts.

Import PDFConverter Loop Plan.

Lemma commands_run_app (a b : list Event) :
  commands_run (a ++ b) = (commands_run a ++ commands_run b)%list.
Proof. apply flat_map_app. Qed.

Lemma dirs_made_app (a b : list Event) :
  dirs_made (a ++ b) = (dirs_made a ++ dirs_made b)%list.
Proof. apply flat_map_app. Qed.

Section WithEnv.

Variable env : Env.

(** One iteration on a [.pptx] file: one command, at most one path. *)
Lemma step_plan (self : t) (root target_dir file : string) (acc : list string)
    (w : World) :
  Str.endswith file ".pptx" = true ->
  exists l0 evs0,
    fst (file_step env self root target_dir file (acc, w)) = (acc ++ l0)%list
    /\ log (snd (file_step env self root target_dir file (acc, w)))
       = (log w ++ evs0)%list
    /\ commands_run evs0 = [convert_command_of self root file target_dir]
    /\ dirs_made evs0 = []
    /\ l0 `sublist_of` [target_file_of file target_dir].
Proof.
  intros Hext. unfold file_step. rewrite Hext. cbn [fst snd].
  rewrite ConverterFacts._convert_file_cases. cbv zeta.
  destruct (_ =? 0); [destruct (Fs.is_file _ _)|]; cbn [fst snd after log].
  - unfold append_if_truthy. destruct (truthy_opt _).
    + eexists [_], _. repeat split. reflexivity.
    + eexists [], _. rewrite app_nil_r. repeat split. apply sublist_nil_l.
  - eexists [], _. rewrite app_nil_r. repeat split. apply sublist_nil_l.
  - eexists [], _. rewrite app_nil_r. repeat split. apply sublist_nil_l.
Qed.

(** The inner loop: what it appends, logs and runs. *)
Lemma files_plan (self : t) (root target_dir : string) (files acc : list string)
    (w : World) :
  let st := fold_left (fun st file => file_step env self root target_dir file st)
              files (acc, w) in
  exists l' evs,
    fst st = (acc ++ l')%list
    /\ log (snd st) = (log w ++ evs)%list
    /\ commands_run evs
       = map (fun file => convert_command_of self root file target_dir)
           (pptx_files files)
    /\ dirs_made evs = []
    /\ l' `sublist_of`
         map (fun file => target_file_of file target_dir) (pptx_files files).
Proof.
  revert acc w. induction files as [|file files IH]; intros acc w.
  - exists [], []. cbn. rewrite !app_nil_r. repeat split; constructor.
  - cbn [fold_left]. unfold pptx_files. cbn [List.filter]. fold (pptx_files files).
    destruct (Str.endswith file ".pptx") eqn:Hext.
    + destruct (step_plan self root target_dir file acc w Hext)
        as (l0 & evs0 & Hl0 & Hlog0 & Hcmd0 & Hdirs0 & Hsub0).
      destruct (file_step env self root target_dir file (acc, w)) as [acc1 w1].
      cbn [fst snd] in Hl0, Hlog0. subst acc1.
      destruct (IH (acc ++ l0)%list w1) as (l' & evs & Hl & Hlog & Hcmd & Hdirs & Hsub).
      cbv zeta in Hl, Hlog.
      exists (l0 ++ l')%list, (evs0 ++ evs)%list.
      rewrite Hl, Hlog, Hlog0, <- !app_assoc, commands_run_app, dirs_made_app.
      rewrite Hcmd0, Hcmd, Hdirs0, Hdirs. cbn [map app].
      repeat split.
      change (target_file_of file target_dir
                :: map (fun file0 => target_file_of file0 target_dir) (pptx_files files))
        with ([target_file_of file target_dir]
                ++ map (fun file0 => target_file_of file0 target_dir) (pptx_files files))%list.
      now apply sublist_app.
    + replace (file_step env self root target_dir file (acc, w)) with (acc, w)
        by (unfold file_step; now rewrite Hext).
      apply IH.
Qed.

(** The outer loop, when it ends normally. *)
Lemma walk_plan (self : t) entries (acc : list string) (w : World)
    (l : list string) (w' : World) :
  convert_walk env self entries acc w = (Ok l, w') ->
  exists l' evs,
    l = (acc ++ l')%list
    /\ log w' = (log w ++ evs)%list
    /\ commands_run evs = commands_of env self entries
    /\ dirs_made evs = target_dirs_of env self entries
    /\ length (target_dirs_of env self entries) = length entries
    /\ l' `sublist_of` destinations_of env self entries.
Proof.
  revert acc w. induction entries as [|entry entries IH]; intros acc w.
  - cbn. intros [= <- <-]. exists [], []. rewrite !app_nil_r.
    repeat split; constructor.
  - rewrite ConverterFacts.convert_walk_cons. unfold bind.
    destruct entry as [[root dirs] files].
    rewrite ConverterFacts.dir_step_cases.
    unfold commands_of, target_dirs_of, destinations_of. cbn [flat_map].
    fold (commands_of env self entries) (target_dirs_of env self entries)
      (destinations_of env self entries).
    destruct (target_dir_of env self root) as [target_dir|]; [|discriminate].
    destruct (Fs.mkdirs_from _ _ _) as [[[]|e] s]; [|discriminate].
    rewrite ConverterFacts.convert_files_fold. cbv zeta.
    destruct (files_plan self root target_dir files acc
                (after w s [EMakedirs target_dir]))
      as (l1 & evs1 & Hl1 & Hlog1 & Hcmd1 & Hdirs1 & Hsub1).
    cbv zeta in Hl1, Hlog1. cbn [after log] in Hlog1.
    intros Hrest. apply IH in Hrest
      as (l2 & evs2 & -> & Hlog2 & Hcmd2 & Hdirs2 & Hlen2 & Hsub2).
    exists (l1 ++ l2)%list, ([EMakedirs target_dir] ++ evs1 ++ evs2)%list.
    rewrite Hl1, Hlog2, Hlog1, <- !app_assoc.
    rewrite !commands_run_app, !dirs_made_app, Hcmd1, Hcmd2, Hdirs1, Hdirs2.
    cbn [length app]. rewrite Hlen2.
    repeat split. now apply sublist_app.
Qed.

(** Destinations are non-empty and end in [.pdf]. *)
Lemma target_file_ends_in_pdf (file target_dir : string) :
  Str.endswith (target_file_of file target_dir) ".pdf" = true
  /\ target_file_of file target_dir <> EmptyString.
Proof.
  unfold target_file_of. set (name := fst (PosixPath.splitext file)).
  assert (Hends : Str.endswith (PosixPath.join target_dir (name +:+ ".pdf")) ".pdf"
                  = true).
  { unfold PosixPath.join.
    destruct (Str.startswith _ _); [apply StrFacts.endswith_app|].
    destruct (_ || _).
    - rewrite <- StrFacts.app_assoc. apply StrFacts.endswith_app.
    - unfold PosixPath.sep. rewrite <- !StrFacts.app_assoc.
      apply StrFacts.endswith_app. }
  split; [exact Hends|].
  intros Hempty. rewrite Hempty in Hends. discriminate.
Qed.

Lemma in_destinations (self : t) entries (p : string) :
  In p (destinations_of env self entries) ->
  exists file target_dir, p = target_file_of file target_dir.
Proof.
  unfold destinations_of. rewrite in_flat_map.
  intros ([[root dirs] files] & _ & Hin).
  destruct (target_dir_of env self root) as [target_dir|]; [|destruct Hin].
  apply in_map_iff in Hin as (file & <- & _). eauto.
Qed.

End WithEnv.

End PlanFacts.

(** X8: a conversion that ends normally has called [os.makedirs] once
    for each entry of the walk, on its target directory, and has run one
    command for each file whose name ends in [.pptx] and no other, all
    in the order of the walk: no file is retried and none is skipped. *)
Theorem X8_one_makedirs_per_directory_one_command_per_pptx_file
    (env : Env) (self : PDFConverter.t) (w w' : World) (l : list string) :
  PDFConverter.convert env self w = (Ok l, w') ->
  exists src evs,
    PDFConverter.source_dir self = PStr src
    /\ log w' = (log w ++ evs)%list
    /\ Plan.dirs_made evs = Plan.target_dirs_of env self (os_walk env src)
    /\ length (Plan.target_dirs_of env self (os_walk env src))
       = length (os_walk env src)
    /\ Plan.commands_run evs = Plan.commands_of env self (os_walk env src).
Proof.
  unfold PDFConverter.convert, bind, os_walk_entries.
  destruct (PDFConverter.source_dir self) as [| | | |src| |]; try discriminate.
  cbn [ret]. intros Hrun.
  apply PlanFacts.walk_plan in Hrun
    as (l' & evs & _ & Hlog & Hcmd & Hdirs & Hlen & _).
  exists src, evs. auto.
Qed.

Lemma X8_one_makedirs_per_directory_one_command_per_pptx_file_witness :
  let w' := snd (PDFConverter.convert Scenario.env Scenario.converter Scenario.w0) in
  PDFConverter.convert Scenario.env Scenario.converter Scenario.w0
    = (Ok Scenario.converted, w')
  /\ exists evs,
       log w' = (log Scenario.w0 ++ evs)%list
       /\ Plan.commands_run evs
          = [Scenario.cmd_one; Scenario.cmd_two; Scenario.cmd_three;
             Scenario.cmd_four; Scenario.cmd_five].
Proof.
  intros w'.
  assert (H1 : PDFConverter.convert Scenario.env Scenario.converter Scenario.w0
               = (Ok Scenario.converted, w')) by (vm_compute; reflexivity).
  refine (conj H1 _).
  destruct (X8_one_makedirs_per_directory_one_command_per_pptx_file Scenario.env
              Scenario.converter Scenario.w0 w' Scenario.converted H1)
    as (src & evs & Hsrc & Hlog & _ & _ & Hcmd).
  exists evs. split; [exact Hlog|].
  injection Hsrc as <-. rewrite Hcmd. reflexivity.
Defined.

(** X9: the list [convert] returns keeps the order of the walk: it is a
    subsequence of the destinations of the [.pptx] files, directory by
    directory and file by file (so it is never longer than the number of
    such files), and every path in it is non-empty and ends in [.pdf]. *)
Theorem X9_result_is_a_subsequence_of_the_destinations
    (env : Env) (self : PDFConverter.t) (w w' : World) (l : list string) :
  PDFConverter.convert env self w = (Ok l, w') ->
  exists src,
    PDFConverter.source_dir self = PStr src
    /\ l `sublist_of` Plan.destinations_of env self (os_walk env src)
    /\ (length l <= length (Plan.destinations_of env self (os_walk env src)))%nat
    /\ forall p, In p l -> Str.endswith p ".pdf" = true /\ p <> EmptyString.
Proof.
  unfold PDFConverter.convert, bind, os_walk_entries.
  destruct (PDFConverter.source_dir self) as [| | | |src| |]; try discriminate.
  cbn [ret]. intros Hrun.
  apply PlanFacts.walk_plan in Hrun as (l' & evs & -> & _ & _ & _ & _ & Hsub).
  cbn [app]. exists src. split; [reflexivity|]. split; [exact Hsub|]. split.
  - now apply sublist_length.
  - intros p Hin.
    assert (Hdest : In p (Plan.destinations_of env self (os_walk env src))).
    { apply list_elem_of_In. eapply elem_of_sublist; [|exact Hsub].
      now apply list_elem_of_In. }
    apply PlanFacts.in_destinations in Hdest as (file & target_dir & ->).
    apply PlanFacts.target_file_ends_in_pdf.
Qed.

Lemma X9_result_is_a_subsequence_of_the_destinations_witness :
  let w' := snd (PDFConverter.convert Scenario.env Scenario.converter Scenario.w0) in
  PDFConverter.convert Scenario.env Scenario.converter Scenario.w0
    = (Ok Scenario.converted, w')
  /\ Scenario.converted
     `sublist_of` ["out/a/one.pdf"; "out/a/b/two.pdf"; "out/a/b/three.pdf";
                   "out/a/b/four.pdf"; "out/a/b/five.pdf"].
Proof.
  intros w'.
  assert (H1 : PDFConverter.convert Scenario.env Scenario.converter Scenario.w0
               = (Ok Scenario.converted, w')) by (vm_compute; reflexivity).
  refine (conj H1 _).
  destruct (X9_result_is_a_subsequence_of_the_destinations Scenario.env
              Scenario.converter Scenario.w0 w' Scenario.converted H1)
    as (src & Hsrc & Hsub & _).
  injection Hsrc as <-. exact Hsub.
Defined.

(** ** What a conversion run leaves in the file system *)

Module FrameFacts.

Import PDFConverter Loop.

Section WithEnv.

Variable env : Env.

(** A relation between file systems that holds from any file system to
    itself, is transitive, and links each file system to the one
    [mkdirs_from] and the command leave. *)
Variable R : FS -> FS -> Prop.
Hypothesis R_refl : forall s, R s s.
Hypothesis R_trans : forall s1 s2 s3, R s1 s2 -> R s2 s3 -> R s1 s3.
Hypothesis R_mkdirs : forall pre rest s, R s (snd (Fs.mkdirs_from pre rest s)).
Hypothesis R_shell : forall cmd s, R s (snd (shell env cmd s)).

Lemma file_step_related (self : t) (root target_dir file : string)
    (st : list string * World) :
  R (fs (snd st)) (fs (snd (file_step env self root target_dir file st))).
Proof.
  unfold file_step. destruct (Str.endswith file ".pptx"); [|apply R_refl].
  rewrite ConverterFacts._convert_file_cases. cbv zeta.
  destruct (_ =? 0); [destruct (Fs.is_file _ _)|]; cbn [snd after fs];
    apply R_shell.
Qed.

Lemma files_fold_related (self : t) (root target_dir : string) (files : list string)
    (st : list string * World) :
  R (fs (snd st))
    (fs (snd (fold_left (fun st file => file_step env self root target_dir file st)
                files st))).
Proof.
  revert st. induction files as [|file files IH]; intros st; [apply R_refl|].
  cbn [fold_left]. eapply R_trans; [apply file_step_related | apply IH].
Qed.

Lemma convert_walk_related (self : t) entries (acc : list string) (w : World) :
  R (fs w) (fs (snd (convert_walk env self entries acc w))).
Proof.
  revert acc w. induction entries as [|[[root dirs] files] entries IH]; intros acc w;
    [apply R_refl|].
  rewrite ConverterFacts.convert_walk_cons. unfold bind.
  rewrite ConverterFacts.dir_step_cases.
  destruct (target_dir_of env self root) as [target_dir|]; [|apply R_refl].
  pose proof (R_mkdirs [] (resolve env target_dir) (fs w)) as Hmk.
  destruct (Fs.mkdirs_from _ _ _) as [[[]|e] s]; cbn [snd] in Hmk; [|exact Hmk].
  rewrite ConverterFacts.convert_files_fold. cbv zeta.
  eapply R_trans; [exact Hmk|].
  eapply R_trans; [|apply IH].
  apply (files_fold_related self root target_dir files
           (acc, after w s [EMakedirs target_dir])).
Qed.

Lemma convert_related (self : t) (w : World) :
  R (fs w) (fs (snd (convert env self w))).
Proof.
  unfold convert, bind, os_walk_entries.
  destruct (source_dir self); try apply R_refl. apply convert_walk_related.
Qed.

End WithEnv.

(** [mkdirs_from] changes a path only by making it a directory. *)
Lemma mkdirs_from_adds_dirs (rest pre : list string) (s : FS) (q : list string) :
  snd (Fs.mkdirs_from pre rest s) !! q = s !! q
  \/ (s !! q = None /\ snd (Fs.mkdirs_from pre rest s) !! q = Some Dir).
Proof.
  revert pre s. induction rest as [|c rest IH]; intros pre s; [now left|].
  cbn [Fs.mkdirs_from].
  destruct (s !! (pre ++ [c])%list) as [[|data]|] eqn:E0.
  - apply IH.
  - now left.
  - destruct (IH (pre ++ [c])%list (<[(pre ++ [c])%list := Dir]> s)) as [H | [H1 H2]].
    + destruct (decide ((pre ++ [c])%list = q)) as [<-|Hne].
      * right. split; [exact E0|]. now rewrite H, lookup_insert_eq.
      * left. now rewrite H, lookup_insert_ne.
    + destruct (decide ((pre ++ [c])%list = q)) as [<-|Hne].
      * now rewrite lookup_insert_eq in H1.
      * rewrite lookup_insert_ne in H1 by exact Hne. now right.
Qed.

End FrameFacts.

(** X10: [convert] by itself removes and overwrites nothing: if no
    command the shell runs removes or changes a node that exists, then
    every node that exists before [convert] is there unchanged after
    it, whether [convert] returns or raises. *)
Theorem X10_convert_keeps_what_the_commands_keep
    (env : Env) (self : PDFConverter.t) (w : World) :
  (forall cmd s q n, s !! q = Some n -> snd (shell env cmd s) !! q = Some n) ->
  forall q n,
    fs w !! q = Some n ->
    fs (snd (PDFConverter.convert env self w)) !! q = Some n.
Proof.
  intros Hshell.
  apply (FrameFacts.convert_related env
           (fun s s' : FS => forall q n, s !! q = Some n -> s' !! q = Some n)).
  - auto.
  - auto.
  - intros pre rest s q n. apply RunFacts.mkdirs_from_keeps.
  - exact Hshell.
Qed.

Lemma X10_convert_keeps_what_the_commands_keep_witness :
  (forall cmd s q n, s !! q = Some n -> snd (shell Cases.offline cmd s) !! q = Some n)
  /\ fs (snd (PDFConverter.convert Cases.offline Scenario.converter Scenario.w0))
       !! ["w"; "config.yaml"] = Some (File "full").
Proof.
  assert (H1 : forall cmd s q n,
             s !! q = Some n -> snd (shell Cases.offline cmd s) !! q = Some n)
    by (intros cmd s q n H; exact H).
  refine (conj H1 _).
  exact (X10_convert_keeps_what_the_commands_keep Cases.offline Scenario.converter
           Scenario.w0 H1 ["w"; "config.yaml"] (File "full") eq_refl).
Defined.

(** X11: the only thing [convert] itself writes is directories: if the
    commands leave the file system as they find it, then after
    [convert], whatever its outcome, each path either holds what it held
    before or was free and is now a directory; no file is created,
    changed or removed. *)
Theorem X11_convert_itself_only_adds_directories
    (env : Env) (self : PDFConverter.t) (w : World) :
  (forall cmd s, snd (shell env cmd s) = s) ->
  forall q,
    fs (snd (PDFConverter.convert env self w)) !! q = fs w !! q
    \/ (fs w !! q = None
        /\ fs (snd (PDFConverter.convert env self w)) !! q = Some Dir).
Proof.
  intros Hshell.
  apply (FrameFacts.convert_related env
           (fun s s' : FS =>
              forall q, s' !! q = s !! q \/ (s !! q = None /\ s' !! q = Some Dir))).
  - intros s q. now left.
  - intros s1 s2 s3 H12 H23 q.
    destruct (H23 q) as [E23 | [E2 E3]], (H12 q) as [E12 | [E1 E2']].
    + left. congruence.
    + right. split; congruence.
    + right. split; congruence.
    + congruence.
  - intros pre rest s q. apply FrameFacts.mkdirs_from_adds_dirs.
  - intros cmd s q. left. now rewrite Hshell.
Qed.

Lemma X11_convert_itself_only_adds_directories_witness :
  (forall cmd s, snd (shell Cases.offline cmd s) = s)
  /\ fs (snd (PDFConverter.convert Cases.offline Scenario.converter Scenario.w0))
       !! ["w"; "out"; "a"; "one.pdf"] = None.
Proof.
  assert (H1 : forall cmd s, snd (shell Cases.offline cmd s) = s) by reflexivity.
  refine (conj H1 _).
  destruct (X11_convert_itself_only_adds_directories Cases.offline Scenario.converter
              Scenario.w0 H1 ["w"; "out"; "a"; "one.pdf"]) as [H | [_ H]].
  - rewrite H. reflexivity.
  - exfalso. revert H. vm_compute. discriminate.
Defined.

(** ** Paths and their components *)

Module PathFacts.

Import Names.

Lemma split_not_nil (c : ascii) (s : string) : Str.split c s <> [].
Proof.
  induction s as [|a s IH]; [discriminate|]. cbn.
  destruct (Ascii.eqb a c); [discriminate|]. now destruct (Str.split c s).
Qed.

Lemma split_app_sep (c : ascii) (a b : string) :
  Str.split c (a +:+ String c b) = (Str.split c a ++ Str.split c b)%list.
Proof.
  induction a as [|x a IH].
  - rewrite StrFacts.app_nil. cbn. now rewrite Ascii.eqb_refl.
  - rewrite StrFacts.app_cons. cbn [Str.split]. rewrite IH.
    destruct (Ascii.eqb x c); [reflexivity|].
    pose proof (split_not_nil c a) as Hne.
    destruct (Str.split c a) as [|h t]; [congruence | reflexivity].
Qed.

Lemma split_no_sep (s : string) : has_sep s = false -> Str.split "/" s = [s].
Proof.
  induction s as [|a s IH]; [reflexivity|]. cbn.
  intros H. apply orb_false_iff in H as [Ha Hs]. rewrite Ha, (IH Hs). reflexivity.
Qed.

Lemma split_pieces (s : string) : Forall (fun x => has_sep x = false) (Str.split "/" s).
Proof.
  induction s as [|a s IH]; [repeat constructor|]. cbn [Str.split].
  destruct (Ascii.eqb a "/") eqn:Ea; [now constructor|].
  destruct (Str.split "/" s) as [|h t]; [repeat constructor; cbn; now rewrite Ea|].
  inversion IH as [|? ? Hh Ht]; subst. constructor; [|exact Ht].
  cbn. now rewrite Ea, Hh.
Qed.

Lemma has_sep_app (a b : string) : has_sep (a +:+ b) = has_sep a || has_sep b.
Proof.
  induction a as [|x a IH]; [reflexivity|].
  rewrite StrFacts.app_cons. cbn. now rewrite IH, orb_assoc.
Qed.

Lemma has_sep_take (n : nat) (s : string) : has_sep s = false -> has_sep (Str.take n s) = false.
Proof.
  revert s. induction n as [|n IH]; intros [|a s]; cbn; try reflexivity.
  intros H. apply orb_false_iff in H as [Ha Hs]. now rewrite Ha, IH.
Qed.

Lemma concat_split (l : list string) :
  l <> [] -> Forall (fun x => has_sep x = false) l ->
  Str.split "/" (String.concat "/" l) = l.
Proof.
  induction l as [|x l IH]; [congruence|]. intros _ Hall.
  inversion Hall as [|? ? Hx Hl]; subst.
  destruct l as [|y l].
  - cbn. now apply split_no_sep.
  - change (String.concat "/" (x :: y :: l))
      with (x +:+ String "/" (String.concat "/" (y :: l))).
    rewrite split_app_sep, (split_no_sep x Hx), IH; [reflexivity|discriminate|exact Hl].
Qed.

Lemma normpath_comps_app (i : nat) (l1 l2 acc : list string) :
  PosixPath.normpath_comps i (l1 ++ l2) acc
  = PosixPath.normpath_comps i l2 (PosixPath.normpath_comps i l1 acc).
Proof.
  revert acc. induction l1 as [|c l1 IH]; intros acc; [reflexivity|].
  cbn [app PosixPath.normpath_comps].
  destruct (_ || _); [apply IH|]. destruct (_ || _); apply IH.
Qed.

Lemma Forall_removelast {A} (P : A -> Prop) (l : list A) :
  Forall P l -> Forall P (removelast l).
Proof.
  induction 1 as [|x l Hx Hl IH]; [constructor|]. cbn.
  destruct l; [constructor|]. constructor; assumption.
Qed.

Lemma normpath_comps_kept (i : nat) (l acc : list string) :
  Forall (fun x => has_sep x = false) l -> Forall kept acc ->
  Forall kept (PosixPath.normpath_comps i l acc).
Proof.
  intros Hl. revert acc. induction Hl as [|c l Hc Hl IH]; intros acc Hacc; [exact Hacc|].
  cbn [PosixPath.normpath_comps].
  destruct ((c =? EmptyString)%string || (c =? PosixPath.curdir)%string) eqn:Eskip;
    [now apply IH|].
  apply orb_false_iff in Eskip as [Hne _]. apply String.eqb_neq in Hne.
  destruct (_ || _).
  - apply IH. apply Forall_app. split; [exact Hacc|]. repeat constructor; assumption.
  - apply IH. now apply Forall_removelast.
Qed.

End PathFacts.


Module PathFacts2.

Import Names PathFacts Abs.

Lemma abspath_absolutize (cwd p : string) :
  PosixPath.abspath cwd p = PosixPath.normpath (absolutize cwd p).
Proof. unfold PosixPath.abspath, absolutize. now destruct (PosixPath.isabs p). Qed.

Lemma startswith_cons (c a : ascii) (p q : string) :
  Str.startswith (String a q) (String c p)
  = if Ascii.ascii_dec c a then Str.startswith q p else false.
Proof. reflexivity. Qed.

Lemma startswith_nil (c : ascii) (p : string) :
  Str.startswith EmptyString (String c p) = false.
Proof. reflexivity. Qed.

Lemma startswith_empty (q : string) : Str.startswith q EmptyString = true.
Proof. now destruct q. Qed.

Lemma isabs_inv (q : string) : PosixPath.isabs q = true -> exists q1, q = String "/" q1.
Proof.
  unfold PosixPath.isabs, PosixPath.sep.
  destruct q as [|a q]; [discriminate|]. rewrite startswith_cons.
  destruct (Ascii.ascii_dec "/" a) as [E|Hne]; [subst a; eauto | discriminate].
Qed.

Lemma filter_truthy_kept (l : list string) :
  Forall kept l -> List.filter Str.truthy l = l.
Proof.
  induction 1 as [|x l [_ Hx] Hl IH]; [reflexivity|]. cbn.
  unfold Str.truthy at 1. apply String.eqb_neq in Hx. rewrite Hx. cbn. now rewrite IH.
Qed.

Lemma components_of_concat (comps : list string) :
  Forall kept comps ->
  List.filter Str.truthy (Str.split "/" (String.concat "/" comps)) = comps.
Proof.
  intros Hk. destruct comps as [|c comps]; [reflexivity|].
  rewrite concat_split; [now apply filter_truthy_kept | discriminate |].
  eapply Forall_impl; [exact Hk|]. now intros x [Hx _].
Qed.

(** The components of a normalised absolute path are what the loop of
    [normpath] leaves. *)
Lemma components_abs (q : string) :
  PosixPath.isabs q = true ->
  List.filter Str.truthy (Str.split "/" (PosixPath.normpath q))
  = PosixPath.normpath_comps (slashes q) (Str.split "/" q) [].
Proof.
  intros Habs. destruct (isabs_inv q Habs) as [q1 ->].
  unfold PosixPath.normpath.
  change ((String "/" q1 =? EmptyString)%string) with false. cbv iota.
  unfold PosixPath.isabs in Habs. rewrite Habs.
  fold (slashes (String "/" q1)).
  set (i := slashes (String "/" q1)).
  set (comps := PosixPath.normpath_comps i (Str.split "/" (String "/" q1)) []).
  assert (Hk : Forall kept comps).
  { apply normpath_comps_kept; [apply split_pieces | constructor]. }
  assert (Hi : i = 1%nat \/ i = 2%nat).
  { unfold i, slashes. destruct (_ && _); auto. }
  cbv zeta.
  destruct Hi as [-> | ->]; cbv iota.
  - unfold PosixPath.sep. rewrite StrFacts.app_cons, StrFacts.app_nil.
    change (Str.truthy (String "/" (String.concat "/" comps))) with true. cbv iota.
    cbn [Str.split]. cbn [Ascii.eqb Bool.eqb]. cbn [List.filter Str.truthy].
    change (Str.truthy EmptyString) with false. cbv iota.
    now apply components_of_concat.
  - rewrite !StrFacts.app_cons, StrFacts.app_nil.
    change (Str.truthy (String "/" (String "/" (String.concat "/" comps)))) with true.
    cbv iota.
    cbn [Str.split]. cbn [Ascii.eqb Bool.eqb]. cbn [List.filter].
    change (Str.truthy EmptyString) with false. cbv iota.
    now apply components_of_concat.
Qed.

End PathFacts2.

Module JoinFacts.

Import Names PathFacts Abs PathFacts2.

Lemma app_empty (s : string) : s +:+ EmptyString = s.
Proof.
  induction s as [|a s IH]; [reflexivity|]. rewrite StrFacts.app_cons. now rewrite IH.
Qed.

Lemma no_sep_not_abs (name : string) :
  has_sep name = false -> Str.startswith name "/" = false.
Proof.
  destruct name as [|a name]; [reflexivity|]. cbn [has_sep].
  intros H. apply orb_false_iff in H as [Ha _]. rewrite startswith_cons.
  destruct (Ascii.ascii_dec "/" a) as [<-|]; [discriminate | reflexivity].
Qed.

Lemma drop_app_plus (a p : string) (k : nat) :
  Str.drop (String.length a + k) (a +:+ p) = Str.drop k p.
Proof.
  induction a as [|x a IH]; [reflexivity|]. rewrite StrFacts.app_cons. exact IH.
Qed.

Lemma endswith_sep_app (a p : string) :
  p <> EmptyString -> Str.endswith (a +:+ p) "/" = Str.endswith p "/".
Proof.
  intros Hp. unfold Str.endswith. rewrite StrFacts.length_app.
  assert (Hlen : (1 <= String.length p)%nat) by (destruct p; [congruence | cbn; lia]).
  change (String.length "/") with 1%nat.
  replace (String.length a + String.length p - 1)%nat
    with (String.length a + (String.length p - 1))%nat by lia.
  rewrite drop_app_plus.
  replace (1 <=? String.length a + String.length p)%nat with true
    by (symmetry; apply Nat.leb_le; lia).
  replace (1 <=? String.length p)%nat with true
    by (symmetry; apply Nat.leb_le; lia).
  reflexivity.
Qed.

Lemma startswith_app (p x pre : string) :
  p <> EmptyString -> String.length pre = 1%nat ->
  Str.startswith (p +:+ x) pre = Str.startswith p pre.
Proof.
  intros Hp Hpre. destruct p as [|a p]; [congruence|].
  destruct pre as [|c [|d pre]]; try discriminate.
  rewrite StrFacts.app_cons, !startswith_cons.
  destruct (Ascii.ascii_dec c a); [|reflexivity]. now rewrite !startswith_empty.
Qed.

(** [join] on a second argument that does not start with a slash. *)
Lemma join_relative (a b : string) :
  Str.startswith b "/" = false ->
  PosixPath.join a b
  = if (a =? EmptyString)%string || Str.endswith a "/" then a +:+ b
    else a +:+ "/" +:+ b.
Proof.
  intros Hb. unfold PosixPath.join, PosixPath.sep, Str.truthy. rewrite Hb.
  now rewrite negb_involutive.
Qed.

Lemma join_not_empty (a b : string) : b <> EmptyString -> PosixPath.join a b <> EmptyString.
Proof.
  intros Hb. unfold PosixPath.join.
  destruct (Str.startswith b PosixPath.sep); [exact Hb|].
  assert (Happ : forall x y, y <> EmptyString -> x +:+ y <> EmptyString).
  { intros [|c x] y Hy; [exact Hy | discriminate]. }
  destruct (_ || _); apply Happ; [exact Hb|]. unfold PosixPath.sep. discriminate.
Qed.

Lemma join_starts_like (a b : string) :
  a <> EmptyString -> Str.startswith b "/" = false ->
  Str.startswith (PosixPath.join a b) "/" = Str.startswith a "/".
Proof.
  intros Ha Hb. rewrite (join_relative a b Hb).
  destruct (_ || _); now apply startswith_app.
Qed.

Lemma join_ends_like (a b : string) :
  b <> EmptyString -> Str.startswith b "/" = false ->
  Str.endswith (PosixPath.join a b) "/" = Str.endswith b "/".
Proof.
  intros Hne Hb. rewrite (join_relative a b Hb).
  destruct (_ || _); [now apply endswith_sep_app|].
  rewrite <- StrFacts.app_assoc. now apply endswith_sep_app.
Qed.

Lemma join_assoc (a b c : string) :
  b <> EmptyString -> Str.startswith b "/" = false -> Str.startswith c "/" = false ->
  PosixPath.join a (PosixPath.join b c) = PosixPath.join (PosixPath.join a b) c.
Proof.
  intros Hne Hb Hc.
  assert (Hbc : Str.startswith (PosixPath.join b c) "/" = false)
    by now rewrite join_starts_like.
  rewrite (join_relative a _ Hbc), (join_relative (PosixPath.join a b) c Hc).
  assert (Hab : PosixPath.join a b <> EmptyString) by now apply join_not_empty.
  apply String.eqb_neq in Hab. rewrite Hab. cbn [orb].
  rewrite (join_ends_like a b Hne Hb).
  rewrite (join_relative b c Hc), (join_relative a b Hb).
  apply String.eqb_neq in Hne. rewrite Hne. cbn [orb].
  destruct (Str.endswith b "/"), ((a =? EmptyString)%string || Str.endswith a "/");
    now rewrite ?StrFacts.app_assoc.
Qed.

Lemma join_empty_then (a c : string) :
  Str.startswith c "/" = false ->
  PosixPath.join (PosixPath.join a EmptyString) c = PosixPath.join a c.
Proof.
  intros Hc. rewrite (join_relative a EmptyString eq_refl), !(join_relative _ c Hc).
  destruct (a =? EmptyString)%string eqn:Ea.
  - apply String.eqb_eq in Ea. subst a. reflexivity.
  - cbn [orb]. destruct (Str.endswith a "/") eqn:Eend.
    + rewrite app_empty, Ea, Eend. reflexivity.
    + rewrite app_empty.
      replace (Str.endswith (a +:+ "/") "/") with true
        by (symmetry; apply StrFacts.endswith_app).
      rewrite orb_true_r. now rewrite StrFacts.app_assoc.
Qed.

Lemma absolutize_join (cwd p name : string) :
  Str.startswith name "/" = false ->
  absolutize cwd (PosixPath.join p name) = PosixPath.join (absolutize cwd p) name.
Proof.
  intros Hname. unfold absolutize, PosixPath.isabs, PosixPath.sep.
  destruct (String.string_dec p EmptyString) as [-> | Hp].
  - rewrite (join_relative EmptyString name Hname). cbn [String.eqb orb].
    rewrite StrFacts.app_nil, Hname.
    change (Str.startswith EmptyString "/") with false. cbv iota.
    now rewrite join_empty_then.
  - rewrite (join_starts_like p name Hp Hname).
    destruct (Str.startswith p "/") eqn:Habs; [reflexivity|].
    now apply join_assoc.
Qed.

Lemma isabs_absolutize (cwd p : string) :
  PosixPath.isabs cwd = true -> PosixPath.isabs (absolutize cwd p) = true.
Proof.
  intros Hcwd. unfold absolutize.
  destruct (PosixPath.isabs p) eqn:Hp; [exact Hp|].
  unfold PosixPath.isabs, PosixPath.sep in *.
  rewrite join_starts_like; [exact Hcwd | | exact Hp].
  intros ->. discriminate.
Qed.

Lemma split_join (q name : string) (i : nat) (acc : list string) :
  q <> EmptyString -> Str.startswith name "/" = false ->
  PosixPath.normpath_comps i (Str.split "/" (PosixPath.join q name)) acc
  = PosixPath.normpath_comps i (Str.split "/" name)
      (PosixPath.normpath_comps i (Str.split "/" q) acc).
Proof.
  intros Hq Hname. rewrite (join_relative q name Hname).
  apply String.eqb_neq in Hq. rewrite Hq. cbn [orb].
  destruct (Str.endswith q "/") eqn:Hend.
  - apply StrFacts.endswith_inv in Hend as [q' ->].
    rewrite StrFacts.app_assoc.
    change ("/" +:+ name) with (String "/" name).
    change (q' +:+ "/") with (q' +:+ String "/" EmptyString).
    rewrite !split_app_sep, !normpath_comps_app. reflexivity.
  - change ("/" +:+ name) with (String "/" name).
    now rewrite split_app_sep, normpath_comps_app.
Qed.

Lemma slashes_join (q name : string) :
  PosixPath.isabs q = true -> Str.startswith name "/" = false ->
  slashes (PosixPath.join q name) = slashes q.
Proof.
  intros Habs Hname. destruct (isabs_inv q Habs) as [q1 ->].
  rewrite (join_relative _ name Hname).
  change ((String "/" q1 =? EmptyString)%string) with false. cbn [orb].
  assert (Hname2 : Str.startswith name "//" = false).
  { destruct name as [|a name]; [reflexivity|]. rewrite startswith_cons in *.
    destruct (Ascii.ascii_dec "/" a); [|reflexivity].
    rewrite startswith_empty in Hname. discriminate. }
  unfold slashes.
  destruct q1 as [|c [|d q3]].
  - change (Str.endswith "/" "/") with true. cbv iota.
    rewrite StrFacts.app_cons, StrFacts.app_nil, !startswith_cons.
    destruct (Ascii.ascii_dec "/" "/"); [|congruence].
    rewrite Hname. reflexivity.
  - destruct (Ascii.ascii_dec "/" c) as [<-|Hc].
    + change (Str.endswith "//" "/") with true. cbv iota.
      rewrite !StrFacts.app_cons, StrFacts.app_nil, !startswith_cons.
      destruct (Ascii.ascii_dec "/" "/"); [|congruence].
      rewrite Hname, startswith_empty. reflexivity.
    + destruct (Str.endswith _ _);
        rewrite ?StrFacts.app_cons, ?StrFacts.app_nil, !startswith_cons;
        destruct (Ascii.ascii_dec "/" "/"); try congruence;
        destruct (Ascii.ascii_dec "/" c); try congruence; reflexivity.
  - destruct (Str.endswith _ _);
      rewrite ?StrFacts.app_cons, !startswith_cons;
      destruct (Ascii.ascii_dec "/" "/"); try congruence;
      destruct (Ascii.ascii_dec "/" c); try reflexivity;
      destruct (Ascii.ascii_dec "/" d); try reflexivity;
      now rewrite !startswith_empty.
Qed.

(** The components of [join(p, name)] are those of [p] followed by what
    the loop of [normpath] makes of the pieces of [name]. *)
Lemma components_join (cwd p name : string) :
  PosixPath.isabs cwd = true -> Str.startswith name "/" = false ->
  PosixPath.components cwd (PosixPath.join p name)
  = PosixPath.normpath_comps (slashes (absolutize cwd p)) (Str.split "/" name)
      (PosixPath.components cwd p).
Proof.
  intros Hcwd Hname. unfold PosixPath.components.
  rewrite !abspath_absolutize, (absolutize_join cwd p name Hname).
  pose proof (isabs_absolutize cwd p Hcwd) as Habs.
  set (q := absolutize cwd p) in *.
  assert (Hq : q <> EmptyString) by (intros E; rewrite E in Habs; discriminate).
  assert (Habs' : PosixPath.isabs (PosixPath.join q name) = true).
  { unfold PosixPath.isabs, PosixPath.sep in *. now rewrite join_starts_like. }
  rewrite (components_abs _ Habs'), (components_abs _ Habs).
  rewrite (slashes_join q name Habs Hname).
  now apply split_join.
Qed.

Lemma plain_inv (name : string) :
  plain name = true ->
  has_sep name = false /\ name <> EmptyString /\ name <> "." /\ name <> "..".
Proof.
  unfold plain. rewrite !andb_true_iff, !negb_true_iff.
  intros [[[H1 H2] H3] H4]. repeat split; try exact H1; now apply String.eqb_neq.
Qed.

Lemma components_join_plain (cwd p name : string) :
  PosixPath.isabs cwd = true -> plain name = true ->
  PosixPath.components cwd (PosixPath.join p name)
  = (PosixPath.components cwd p ++ [name])%list.
Proof.
  intros Hcwd Hplain. destruct (plain_inv name Hplain) as (Hsep & H0 & H1 & H2).
  rewrite (components_join cwd p name Hcwd (no_sep_not_abs _ Hsep)).
  rewrite (split_no_sep name Hsep). cbn [PosixPath.normpath_comps].
  unfold PosixPath.curdir, PosixPath.pardir.
  apply String.eqb_neq in H0, H1, H2. now rewrite H0, H1, H2.
Qed.

Lemma components_join_dot (cwd p : string) :
  PosixPath.isabs cwd = true ->
  PosixPath.components cwd (PosixPath.join p ".") = PosixPath.components cwd p.
Proof.
  intros Hcwd. now rewrite (components_join cwd p "." Hcwd eq_refl).
Qed.

End JoinFacts.

Module MirrorFacts.

Import Names PathFacts Abs PathFacts2 JoinFacts.

Lemma components_fold (cwd : string) (names : list string) (p : string) :
  PosixPath.isabs cwd = true ->
  Forall (fun name => plain name = true) names ->
  PosixPath.components cwd (fold_left PosixPath.join names p)
  = (PosixPath.components cwd p ++ names)%list.
Proof.
  intros Hcwd Hnames. revert p.
  induction Hnames as [|name names Hname _ IH]; intros p.
  - now rewrite app_nil_r.
  - cbn [fold_left]. rewrite IH, (components_join_plain cwd p name Hcwd Hname).
    now rewrite <- app_assoc.
Qed.

Lemma fold_join_not_empty (names : list string) (p : string) :
  Forall (fun name => plain name = true) names ->
  p <> EmptyString \/ names <> [] ->
  fold_left PosixPath.join names p <> EmptyString.
Proof.
  intros Hnames. revert p.
  induction Hnames as [|name names Hname _ IH]; intros p Hor.
  - destruct Hor as [Hp | Hn]; [exact Hp | congruence].
  - cbn [fold_left]. apply IH. left. apply join_not_empty.
    apply (plain_inv name Hname).
Qed.

Lemma commonprefix_len_app (l r : list string) :
  PosixPath.commonprefix_len l (l ++ r) = length l.
Proof.
  induction l as [|a l IH]; [reflexivity|]. cbn. now rewrite String.eqb_refl, IH.
Qed.

(** [relpath] of a path made by joining plain names onto [start]. *)
Lemma relpath_of_joined (cwd start : string) (names : list string) :
  PosixPath.isabs cwd = true ->
  Forall (fun name => plain name = true) names ->
  start <> EmptyString ->
  PosixPath.relpath cwd (fold_left PosixPath.join names start) start
  = Some (match names with
          | [] => "."
          | name :: names' => fold_left PosixPath.join names' name
          end).
Proof.
  intros Hcwd Hnames Hstart. unfold PosixPath.relpath.
  assert (Hroot : fold_left PosixPath.join names start <> EmptyString)
    by (apply fold_join_not_empty; auto).
  unfold Str.truthy. apply String.eqb_neq in Hroot. rewrite Hroot. cbn [negb].
  rewrite (components_fold cwd names start Hcwd Hnames), commonprefix_len_app.
  rewrite Nat.sub_diag, drop_app_length. cbn [repeat app].
  now destruct names.
Qed.

Lemma join_fold_assoc (a : string) (names : list string) (b : string) :
  Forall (fun name => plain name = true) names ->
  b <> EmptyString -> Str.startswith b "/" = false ->
  PosixPath.join a (fold_left PosixPath.join names b)
  = fold_left PosixPath.join names (PosixPath.join a b).
Proof.
  intros Hnames. revert b.
  induction Hnames as [|name names Hname _ IH]; intros b Hb Hrel; [reflexivity|].
  destruct (plain_inv name Hname) as (Hsep & Hne & _).
  pose proof (no_sep_not_abs name Hsep) as Hnrel.
  cbn [fold_left]. rewrite IH.
  - now rewrite join_assoc.
  - now apply join_not_empty.
  - now rewrite join_starts_like.
Qed.

Lemma rfind_no_sep (s : string) : has_sep s = false -> Str.rfind "/" s = -1.
Proof.
  induction s as [|a s IH]; [reflexivity|]. cbn.
  intros H. apply orb_false_iff in H as [Ha Hs]. rewrite (IH Hs), Ha. reflexivity.
Qed.

Lemma take_all (s : string) : Str.take (String.length s) s = s.
Proof. induction s as [|a s IH]; [reflexivity|]. cbn. now rewrite IH. Qed.

Lemma drop_all (s : string) : Str.drop (String.length s) s = EmptyString.
Proof. induction s as [|a s IH]; [reflexivity|]. exact IH. Qed.

Lemma splitext_scan_cut (k : nat) (p : string) (i d : Z) :
  exists n, PosixPath.splitext_scan k p i d = (Str.take n p, Str.drop n p).
Proof.
  revert i. induction k as [|k IH]; intros i; cbn [PosixPath.splitext_scan].
  - exists (String.length p). now rewrite take_all, drop_all.
  - destruct (negb _); [eauto | apply IH].
Qed.

(** [splitext] cuts its argument in two at some index. *)
Lemma splitext_cut (p : string) :
  exists n, PosixPath.splitext p = (Str.take n p, Str.drop n p).
Proof.
  unfold PosixPath.splitext. destruct (_ <? _); [apply splitext_scan_cut|].
  exists (String.length p). now rewrite take_all, drop_all.
Qed.

Lemma app_inv_tail (a b c : string) : a +:+ c = b +:+ c -> a = b.
Proof.
  revert b. induction a as [|x a IH]; intros b Heq.
  - destruct b as [|y b]; [reflexivity|].
    apply (f_equal String.length) in Heq.
    rewrite StrFacts.app_nil, StrFacts.length_app in Heq. cbn in Heq. lia.
  - destruct b as [|y b].
    + apply (f_equal String.length) in Heq.
      rewrite StrFacts.app_nil, StrFacts.length_app in Heq. cbn in Heq. lia.
    + rewrite !StrFacts.app_cons in Heq. injection Heq as -> Heq.
      now rewrite (IH b Heq).
Qed.

Lemma pdf_name_plain (x : string) :
  has_sep x = false -> plain (x +:+ ".pdf") = true.
Proof.
  intros Hx. unfold plain. rewrite has_sep_app, Hx. cbn [orb has_sep Ascii.eqb].
  assert (Hlen : String.length (x +:+ ".pdf") = (String.length x + 4)%nat)
    by now rewrite StrFacts.length_app.
  assert (Hne : forall y, (String.length y < 4)%nat -> x +:+ ".pdf" <> y).
  { intros y Hy Heq. rewrite Heq in Hlen. lia. }
  rewrite !andb_true_iff, !negb_true_iff. repeat split;
    try reflexivity; apply String.eqb_neq, Hne; cbn; lia.
Qed.

End MirrorFacts.

(** X12: mirroring keeps relative paths. When the working directory is
    absolute and a walked directory is the source directory followed by
    the plain names [names] (no separator in a name, none of them empty,
    [.] or [..]), its target directory exists as a value and resolves to
    the destination directory followed by the same names; the source
    directory itself is mirrored onto the destination directory. *)
Theorem X12_mirrored_directory_keeps_the_relative_path
    (env : Env) (self : PDFConverter.t) (src dist : string) (names : list string) :
  PosixPath.isabs (cwd env) = true ->
  PDFConverter.source_dir self = PStr src ->
  PDFConverter.dist_dir self = PStr dist ->
  src <> EmptyString ->
  Forall (fun name => Names.plain name = true) names ->
  let root := fold_left PosixPath.join names src in
  exists target_dir,
    Loop.target_dir_of env self root = Some target_dir
    /\ resolve env root = (resolve env src ++ names)%list
    /\ resolve env target_dir = (resolve env dist ++ names)%list.
Proof.
  intros Hcwd Hsrc Hdist Hne Hnames root.
  unfold Loop.target_dir_of. rewrite Hsrc, Hdist.
  unfold root. rewrite (MirrorFacts.relpath_of_joined _ _ _ Hcwd Hnames Hne).
  eexists. split; [reflexivity|]. unfold resolve. split.
  - now apply MirrorFacts.components_fold.
  - destruct Hnames as [|name names Hname Hnames].
    + rewrite app_nil_r. now apply JoinFacts.components_join_dot.
    + destruct (JoinFacts.plain_inv name Hname) as (Hsep & Hn & _).
      rewrite MirrorFacts.join_fold_assoc;
        [|assumption|assumption|now apply JoinFacts.no_sep_not_abs].
      apply (MirrorFacts.components_fold (cwd env) (name :: names) dist Hcwd).
      now constructor.
Qed.

Lemma X12_mirrored_directory_keeps_the_relative_path_witness :
  PosixPath.isabs (cwd Scenario.env) = true
  /\ PDFConverter.source_dir Scenario.converter = PStr "src"
  /\ PDFConverter.dist_dir Scenario.converter = PStr "out"
  /\ "src" <> EmptyString
  /\ Forall (fun name => Names.plain name = true) ["a"; "b"]
  /\ exists target_dir,
       Loop.target_dir_of Scenario.env Scenario.converter "src/a/b" = Some target_dir
       /\ resolve Scenario.env target_dir = ["w"; "out"; "a"; "b"].
Proof.
  assert (H1 : PosixPath.isabs (cwd Scenario.env) = true) by reflexivity.
  assert (H2 : PDFConverter.source_dir Scenario.converter = PStr "src") by reflexivity.
  assert (H3 : PDFConverter.dist_dir Scenario.converter = PStr "out") by reflexivity.
  assert (H4 : "src" <> EmptyString) by discriminate.
  assert (H5 : Forall (fun name => Names.plain name = true) ["a"; "b"])
    by (repeat constructor).
  refine (conj H1 (conj H2 (conj H3 (conj H4 (conj H5 _))))).
  destruct (X12_mirrored_directory_keeps_the_relative_path Scenario.env
              Scenario.converter "src" "out" ["a"; "b"] H1 H2 H3 H4 H5)
    as (target_dir & Htarget & _ & Hres).
  exists target_dir. split; [exact Htarget | exact Hres].
Defined.

(** X13: with an absolute working directory and a plain file name, the
    destination of [_convert_file] lies directly inside the target
    directory, under the name [splitext] leaves plus [.pdf], and the
    source file named in the command lies directly inside the walked
    directory. *)
Theorem X13_destination_lies_directly_in_the_target_directory
    (env : Env) (root file target_dir : string) :
  PosixPath.isabs (cwd env) = true ->
  Names.plain file = true ->
  resolve env (PDFConverter.target_file_of file target_dir)
  = (resolve env target_dir ++ [fst (PosixPath.splitext file) +:+ ".pdf"])%list
  /\ resolve env (PosixPath.join root file) = (resolve env root ++ [file])%list.
Proof.
  intros Hcwd Hfile. unfold resolve, PDFConverter.target_file_of. split.
  - apply JoinFacts.components_join_plain; [exact Hcwd|].
    apply MirrorFacts.pdf_name_plain.
    destruct (MirrorFacts.splitext_cut file) as [n ->]. cbn [fst].
    apply PathFacts.has_sep_take. apply (JoinFacts.plain_inv file Hfile).
  - now apply JoinFacts.components_join_plain.
Qed.

Lemma X13_destination_lies_directly_in_the_target_directory_witness :
  PosixPath.isabs (cwd Scenario.env) = true
  /\ Names.plain "one.pptx" = true
  /\ resolve Scenario.env (PDFConverter.target_file_of "one.pptx" "out/a")
     = (resolve Scenario.env "out/a" ++ ["one.pdf"])%list.
Proof.
  assert (H1 : PosixPath.isabs (cwd Scenario.env) = true) by reflexivity.
  assert (H2 : Names.plain "one.pptx" = true) by reflexivity.
  refine (conj H1 (conj H2 _)).
  exact (proj1 (X13_destination_lies_directly_in_the_target_directory Scenario.env
                  "src/a" "one.pptx" "out/a" H1 H2)).
Defined.

(** X14: two presentations of one directory never share a destination:
    for names [stem1.pptx] and [stem2.pptx] without a separator whose
    stems are not made of dots only, different names get different
    destinations in the same target directory. *)
Theorem X14_distinct_names_get_distinct_destinations
    (stem1 stem2 target_dir : string) :
  Names.has_sep stem1 = false -> Names.has_sep stem2 = false ->
  Str.all_dots stem1 = false -> Str.all_dots stem2 = false ->
  stem1 <> stem2 ->
  PDFConverter.target_file_of (stem1 +:+ ".pptx") target_dir
  <> PDFConverter.target_file_of (stem2 +:+ ".pptx") target_dir.
Proof.
  intros Hs1 Hs2 Hd1 Hd2 Hne. unfold PDFConverter.target_file_of.
  rewrite !StrFacts.splitext_pptx. unfold PosixPath.basename.
  rewrite !MirrorFacts.rfind_no_sep by assumption.
  change (Z.to_nat (-1 + 1)) with 0%nat. cbn [Str.drop]. rewrite Hd1, Hd2. cbn [fst].
  assert (Hrel : forall x, Names.has_sep x = false ->
                   Str.startswith (x +:+ ".pdf") "/" = false).
  { intros x Hx. apply JoinFacts.no_sep_not_abs.
    now rewrite PathFacts.has_sep_app, Hx. }
  rewrite !JoinFacts.join_relative by auto.
  intros Heq. apply Hne.
  destruct (_ || _).
  - apply String.app_inj in Heq. now apply MirrorFacts.app_inv_tail in Heq.
  - apply String.app_inj, String.app_inj in Heq.
    now apply MirrorFacts.app_inv_tail in Heq.
Qed.

Lemma X14_distinct_names_get_distinct_destinations_witness :
  Names.has_sep "one" = false /\ Names.has_sep "two" = false
  /\ Str.all_dots "one" = false /\ Str.all_dots "two" = false
  /\ "one" <> "two"
  /\ PDFConverter.target_file_of "one.pptx" "out/a"
     <> PDFConverter.target_file_of "two.pptx" "out/a".
Proof.
  assert (H1 : Names.has_sep "one" = false) by reflexivity.
  assert (H2 : Names.has_sep "two" = false) by reflexivity.
  assert (H3 : Str.all_dots "one" = false) by reflexivity.
  assert (H4 : Str.all_dots "two" = false) by reflexivity.
  assert (H5 : "one" <> "two") by discriminate.
  refine (conj H1 (conj H2 (conj H3 (conj H4 (conj H5 _))))).
  exact (X14_distinct_names_get_distinct_destinations "one" "two" "out/a"
           H1 H2 H3 H4 H5).
Defined.

(** X15: [os.path.splitext] loses nothing: the root and the extension
    it returns, put together again, are the path it was given. *)
Theorem X15_splitext_root_plus_extension_is_the_path (p : string) :
  fst (PosixPath.splitext p) +:+ snd (PosixPath.splitext p) = p.
Proof.
  destruct (MirrorFacts.splitext_cut p) as [n ->]. apply StrFacts.take_drop.
Qed.
